(** * check-side-effects: the command-line driver (src/cli.ts)

    A shallow embedding of [main], [isNodeBinary], [showHelp] and
    [_recursiveMkDir], over an interface for the collaborators that
    cli.ts imports ([fs], [path], [diff], [minimist], [./checker]), and
    the properties of the snapshot-test driver stated in the
    specification. *)

From Stdlib Require Import String Ascii List Arith Lia DecimalString.
From stdpp Require Import base option list strings gmap.
Import ListNotations.

Local Open Scope string_scope.
Local Open Scope list_scope.

(** ** Strings as cli.ts uses them *)

(** The line feed written [\n] in the template literals. *)
Definition nl : string := String (ascii_of_nat 10) EmptyString.

(** [Array.prototype.join] on an array of strings. *)
Definition join (sep : string) (l : list string) : string := String.concat sep l.

(** [String.prototype.endsWith]. *)
Definition endsWith (str suffix : string) : bool :=
  let n := String.length str in
  let k := String.length suffix in
  if Nat.leb k n then String.eqb (substring (n - k) k str) suffix else false.

(** A number inside a template literal: its decimal digits. *)
Definition show_nat (n : nat) : string := NilZero.string_of_uint (Nat.to_uint n).

(** JavaScript truthiness of an optional string ([undefined] and [''] are falsy). *)
Definition truthy (o : option string) : bool :=
  match o with
  | Some s => negb (String.eqb s "")
  | None => false
  end.

(** ** Data model (the interfaces of cli.ts) *)

(** [CheckerCLIOptions]. *)
Record CheckerCLIOptions := {
  cco_cwd : option string;
  cco_output : option string;
  cco_propertyReadSideEffects : bool;
  cco_resolveExternals : bool;
  cco_printDependencies : bool;
  cco_useBuildOptimizer : bool;
  cco_useMinifier : bool;
  cco_warnings : bool;
}.

(** [esModules: string | string[]] of a [Test]. *)
Inductive EsModulesField :=
| OneModule (esm : string)
| ModuleArray (esms : list string).

(** [Test]. *)
Record Test := {
  esModules : EsModulesField;
  options : option CheckerCLIOptions;
  expectedOutput : string;
}.

(** [TestJson]. *)
Record TestJson := { tests : list Test }.

(** [FailedExpectation]. *)
Record FailedExpectation := {
  testDescription : string;
  diff : string;
}.

(** [ParsedCliOptions]: what [minimist] returns under the option table of
    [main]. [test] and [output] have no default, so they may be undefined. *)
Record ParsedCliOptions := {
  pco_help : bool;
  pco_test : option string;
  pco_update : bool;
  pco_cwd : string;
  pco_output : option string;
  pco_propertyReadSideEffects : bool;
  pco_resolveExternals : bool;
  pco_printDependencies : bool;
  pco_useBuildOptimizer : bool;
  pco_useMinifier : bool;
  pco_warnings : bool;
  pco_positional : list string;   (* the field named _ *)
}.

(** [CheckSideEffectsOptions], the argument of [checkSideEffects]. Its
    declaration is in ./checker; the fields are those [main] assigns. In suite
    mode the toggles are present only when the test record carries [options]. *)
Record CheckSideEffectsOptions := {
  cse_esModules : list string;
  cse_cwd : option string;
  cse_output : option string;
  cse_propertyReadSideEffects : option bool;
  cse_resolveExternals : option bool;
  cse_printDependencies : option bool;
  cse_useBuildOptimizer : option bool;
  cse_useMinifier : option bool;
  cse_warnings : option bool;
}.

(** ** Effects *)

(** What a run can throw: a string thrown by cli.ts itself, the TypeError
    of a method call on [undefined], or a failure of a collaborator. *)
Inductive exn :=
| ThrowString (msg : string)
| TypeError (msg : string)
| HostError (msg : string).

(** Result of a collaborator that may fail. *)
Inductive host_result (A : Type) :=
| HostOk (a : A)
| HostFail (msg : string).
Arguments HostOk {A} a.
Arguments HostFail {A} msg.

(** The calls a run makes on its collaborators, in the order it makes them. *)
Inductive event :=
| EvLog (line : string)                       (* console.log *)
| EvExists (path : string)                    (* existsSync *)
| EvRead (path : string)                      (* readFileSync *)
| EvWrite (path data : string)                (* writeFileSync *)
| EvMkdir (path : string)                     (* mkdirSync *)
| EvCheck (o : CheckSideEffectsOptions).      (* checkSideEffects *)

(** How a computation ends. [OutOfFuel] is not a JavaScript outcome: it marks
    a recursion of [_recursiveMkDir] deeper than the fuel given to the model. *)
Inductive outcome (A : Type) :=
| Return (a : A)
| Throw (e : exn)
| OutOfFuel.
Arguments Return {A} a.
Arguments Throw {A} e.
Arguments OutOfFuel {A}.

(** The collaborators of cli.ts, over a type [W] of states of the world
    outside the process (the file system). *)
Class Host (W : Type) := {
  minimist : list string -> ParsedCliOptions;
  resolve : string -> string -> string;
  dirname : string -> string;
  existsSync : W -> string -> bool;
  readFileSync : W -> string -> host_result string;
  writeFileSync : W -> string -> string -> host_result W;
  mkdirSync : W -> string -> host_result W;
  JSON_parse : string -> host_result TestJson;
  createPatch : string -> string -> string -> string;
  checkSideEffects : W -> CheckSideEffectsOptions -> host_result (W * string);
}.

(** A computation: from a world to the world it leaves, the calls it made and
    its outcome. The world and the calls made survive a throw. *)
Definition M (W A : Type) : Type := W -> W * list event * outcome A.

Definition ret {W A} (a : A) : M W A := fun w => (w, [], Return a).

Definition throw {W A} (e : exn) : M W A := fun w => (w, [], Throw e).

Definition bind {W A B} (m : M W A) (k : A -> M W B) : M W B :=
  fun w =>
    match m w with
    | (w1, t1, Return a) =>
        match k a w1 with
        | (w2, t2, r) => (w2, t1 ++ t2, r)
        end
    | (w1, t1, Throw e) => (w1, t1, Throw e)
    | (w1, t1, OutOfFuel) => (w1, t1, OutOfFuel)
    end.

Notation "'let*' x ':=' m 'in' k" := (bind m (fun x => k))
  (at level 10, x name, m at level 100, k at level 200).
Notation "m ';;' k" := (bind m (fun _ => k))
  (at level 100, k at level 200, right associativity).

Section Driver.

Context {W : Type} `{Host W}.

Local Abbreviation M := (M W).

(** The primitive effects. *)
Definition console_log (line : string) : M unit :=
  fun w => (w, [EvLog line], Return tt).

Definition do_existsSync (path : string) : M bool :=
  fun w => (w, [EvExists path], Return (existsSync w path)).

Definition do_readFileSync (path : string) : M string :=
  fun w =>
    match readFileSync w path with
    | HostOk data => (w, [EvRead path], Return data)
    | HostFail msg => (w, [EvRead path], Throw (HostError msg))
    end.

Definition do_writeFileSync (path data : string) : M unit :=
  fun w =>
    match writeFileSync w path data with
    | HostOk w' => (w', [EvWrite path data], Return tt)
    | HostFail msg => (w, [EvWrite path data], Throw (HostError msg))
    end.

Definition do_mkdirSync (path : string) : M unit :=
  fun w =>
    match mkdirSync w path with
    | HostOk w' => (w', [EvMkdir path], Return tt)
    | HostFail msg => (w, [EvMkdir path], Throw (HostError msg))
    end.

Definition do_checkSideEffects (o : CheckSideEffectsOptions) : M string :=
  fun w =>
    match checkSideEffects w o with
    | HostOk (w', report) => (w', [EvCheck o], Return report)
    | HostFail msg => (w, [EvCheck o], Throw (HostError msg))
    end.

Definition do_JSON_parse (text : string) : M TestJson :=
  fun w =>
    match JSON_parse text with
    | HostOk json => (w, [], Return json)
    | HostFail msg => (w, [], Throw (HostError msg))
    end.

(** ** The functions of cli.ts *)

(** [isNodeBinary]. *)
Definition isNodeBinary (str : string) : bool :=
  endsWith str "node" || endsWith str "node.exe".

(** [_recursiveMkDir]. The recursion on [dirname path] is bounded only by
    [existsSync], hence the fuel. *)
Fixpoint _recursiveMkDir (fuel : nat) (path : string) : M unit :=
  match fuel with
  | O => fun w => (w, [], OutOfFuel)
  | S fuel' =>
      let* present := do_existsSync path in
      if negb present then
        _recursiveMkDir fuel' (dirname path) ;;
        do_mkdirSync path
      else ret tt
  end.

(** The text printed by [showHelp]. *)
Definition helpText : string :=
"
check-side-effects [ES modules to check] [--option-name]

Checks side effects from importing given ES modules.

Options:
    --help                    Show this message.
    --cwd                     Override working directory to run the process in.
    --output                  Output the bundle to this path. Useful to trace the sourcemaps.
    --pure-getters            Assume there are no side effects from getters. [Default: false]
    --resolve-externals       Resolve external dependencies. [Default: false]
    --print-dependencies      Print all the module dependencies. [Default: false]
    --use-build-optimizer     Run Build Optimizer over all modules. [Default: true]
    --use-minifier	          Run minifier over the final bundle to remove comments. [Default: true]
    --warnings                Show all warnings. [Default: false]
    --test                    Read a series of tests from a JSON file.
    --update                  Update the test results. [Default: false]

Example:
    check-side-effects ./path/to/library/module.js
".

(** [showHelp]. *)
Definition showHelp : M unit := console_log helpText.

(** Line 104: the module-path field of a test record as an array. *)
Definition unresolvedEsModules (test : Test) : list string :=
  match esModules test with
  | ModuleArray esms => esms
  | OneModule esm => [esm]
  end.

(** Lines 112-116: [{ esModules, cwd: options.cwd, ...test.options }]. *)
Definition suiteCheckSideEffectsOptions
    (opts : ParsedCliOptions) (esms : list string) (test : Test)
  : CheckSideEffectsOptions :=
  match options test with
  | None =>
      {| cse_esModules := esms;
         cse_cwd := Some (pco_cwd opts);
         cse_output := None;
         cse_propertyReadSideEffects := None;
         cse_resolveExternals := None;
         cse_printDependencies := None;
         cse_useBuildOptimizer := None;
         cse_useMinifier := None;
         cse_warnings := None |}
  | Some o =>
      {| cse_esModules := esms;
         cse_cwd := Some (default (pco_cwd opts) (cco_cwd o));
         cse_output := cco_output o;
         cse_propertyReadSideEffects := Some (cco_propertyReadSideEffects o);
         cse_resolveExternals := Some (cco_resolveExternals o);
         cse_printDependencies := Some (cco_printDependencies o);
         cse_useBuildOptimizer := Some (cco_useBuildOptimizer o);
         cse_useMinifier := Some (cco_useMinifier o);
         cse_warnings := Some (cco_warnings o) |}
  end.

(** Lines 104-139: the body of the loop over [testJson.tests], for one
    [test]; it returns [failedExpectations] as the iteration leaves it. *)
Definition loop_body (fuel : nat) (opts : ParsedCliOptions) (testFileDir : string)
    (failedExpectations : list FailedExpectation) (test : Test)
  : M (list FailedExpectation) :=
  let unresolved := unresolvedEsModules test in
  let esms := map (resolve testFileDir) unresolved in
  let modulesDescription := join " " unresolved in
  console_log ("Testing " +:+ modulesDescription) ;;
  let checkSideEffectsOptions := suiteCheckSideEffectsOptions opts esms test in
  let* result := do_checkSideEffects checkSideEffectsOptions in
  let expectedOutputPath := resolve testFileDir (expectedOutput test) in
  let* present := do_existsSync expectedOutputPath in
  let* expected := (if present then do_readFileSync expectedOutputPath else ret "") in
  if negb (String.eqb result expected) then
    let d := createPatch expectedOutputPath expected result in
    let failedExpectations' :=
      failedExpectations ++ [ {| testDescription := modulesDescription; diff := d |} ] in
    (if pco_update opts then
       _recursiveMkDir fuel (dirname expectedOutputPath) ;;
       do_writeFileSync expectedOutputPath result
     else ret tt) ;;
    ret failedExpectations'
  else ret failedExpectations.

(** Lines 103-140: [for (const test of testJson.tests)]. *)
Fixpoint loop (fuel : nat) (opts : ParsedCliOptions) (testFileDir : string)
    (failedExpectations : list FailedExpectation) (ts : list Test)
  : M (list FailedExpectation) :=
  match ts with
  | [] => ret failedExpectations
  | test :: rest =>
      let* failedExpectations' := loop_body fuel opts testFileDir failedExpectations test in
      loop fuel opts testFileDir failedExpectations' rest
  end.

(** Line 148: one entry of the report. *)
Definition snapshotChanged (s : FailedExpectation) : string :=
  "Snapshot for " +:+ testDescription s +:+ " changed:" +:+ nl +:+ nl +:+ diff s +:+ nl.

(** Lines 142-161: the report after the loop. *)
Definition report (opts : ParsedCliOptions) (args : list string)
    (failedExpectations : list FailedExpectation) : M unit :=
  console_log "" ;;
  if Nat.ltb 0 (length failedExpectations) then
    console_log ("The following snapshots have changed:" +:+ nl +:+ nl) ;;
    console_log (join nl (map snapshotChanged failedExpectations)) ;;
    if pco_update opts then
      console_log (show_nat (length failedExpectations) +:+ " test expectations updated." +:+ nl)
    else
      console_log (show_nat (length failedExpectations) +:+ " tests failed, see above for diffs.") ;;
      console_log "To update the expectations, run this command again with the --update flag:" ;;
      console_log "" ;;
      console_log ("  " +:+ join " " args +:+ " --update") ;;
      throw (ThrowString "")
  else
    console_log "All tests passed.".

(** Lines 101-161: a suite run, once the descriptor is loaded. *)
Definition run_suite (fuel : nat) (opts : ParsedCliOptions) (args : list string)
    (testFileDir : string) (testJson : TestJson) : M unit :=
  let* failedExpectations := loop fuel opts testFileDir [] (tests testJson) in
  report opts args failedExpectations.

(** Lines 91-161: the branch taken when [options.test] is set. *)
Definition suite_mode (fuel : nat) (opts : ParsedCliOptions) (args : list string)
    (test : string) : M unit :=
  let testFilePath := resolve (pco_cwd opts) test in
  let* present := do_existsSync testFilePath in
  if negb present then
    throw (ThrowString ("Could not find the test file: " +:+ testFilePath +:+ "."))
  else
    console_log ("Loading tests from " +:+ testFilePath +:+ nl) ;;
    let* text := do_readFileSync testFilePath in
    let* testJson := do_JSON_parse text in
    let testFileDir := dirname testFilePath in
    run_suite fuel opts args testFileDir testJson.

(** Line 166: the module list of a single run. [options._[0]] is [undefined]
    when there is no positional token, and [isNodeBinary] then calls
    [endsWith] on it. *)
Definition single_esModules (opts : ParsedCliOptions) : M (list string) :=
  match pco_positional opts with
  | [] => throw (TypeError "Cannot read properties of undefined (reading 'endsWith')")
  | first :: _ =>
      ret (if isNodeBinary first then drop 2 (pco_positional opts)
           else drop 1 (pco_positional opts))
  end.

(** Lines 173-183. *)
Definition singleCheckSideEffectsOptions
    (opts : ParsedCliOptions) (esms : list string) : CheckSideEffectsOptions :=
  {| cse_esModules := esms;
     cse_cwd := Some (pco_cwd opts);
     cse_output := pco_output opts;
     cse_propertyReadSideEffects := Some (pco_propertyReadSideEffects opts);
     cse_resolveExternals := Some (pco_resolveExternals opts);
     cse_printDependencies := Some (pco_printDependencies opts);
     cse_useBuildOptimizer := Some (pco_useBuildOptimizer opts);
     cse_useMinifier := Some (pco_useMinifier opts);
     cse_warnings := Some (pco_warnings opts) |}.

(** Lines 162-187: the branch taken when [options.test] is not set. *)
Definition single_mode (opts : ParsedCliOptions) : M string :=
  let* esms := single_esModules opts in
  if Nat.eqb (length esms) 0 then
    throw (ThrowString
      "You must provide at least one ES module. Use --help for usage information.")
  else
    do_checkSideEffects (singleCheckSideEffectsOptions opts esms).

(** [main]. It returns the checker's report in a single run and nothing
    otherwise. *)
Definition main (fuel : nat) (args : list string) : M (option string) :=
  let opts := minimist args in
  if pco_help opts then
    showHelp ;; ret None
  else if truthy (pco_test opts) then
    suite_mode fuel opts args (default "" (pco_test opts)) ;; ret None
  else
    let* r := single_mode opts in ret (Some r).

(** ** What a run did: projections of the calls made *)

Definition logs (t : list event) : list string :=
  omap (fun e => match e with EvLog line => Some line | _ => None end) t.

Definition checks (t : list event) : list CheckSideEffectsOptions :=
  omap (fun e => match e with EvCheck o => Some o | _ => None end) t.

Definition writes (t : list event) : list (string * string) :=
  omap (fun e => match e with EvWrite p d => Some (p, d) | _ => None end) t.

Definition mkdirs (t : list event) : list string :=
  omap (fun e => match e with EvMkdir p => Some p | _ => None end) t.

(** The snapshot paths probed with [existsSync]. *)
Definition probes (t : list event) : list string :=
  omap (fun e => match e with EvExists p => Some p | _ => None end) t.

(** Progress lines and checker invocations, interleaved as they happened. *)
Definition progress (t : list event) : list event :=
  List.filter (fun e => match e with EvLog _ | EvCheck _ => true | _ => false end) t.

(** Line 122 and line 106, for one test record. *)
Definition expectedOutputPath (testFileDir : string) (test : Test) : string :=
  resolve testFileDir (expectedOutput test).

Definition modulesDescription (test : Test) : string :=
  join " " (unresolvedEsModules test).

(** The options the checker is invoked with for one test record. *)
Definition caseOptions (opts : ParsedCliOptions) (testFileDir : string) (test : Test)
  : CheckSideEffectsOptions :=
  suiteCheckSideEffectsOptions opts
    (map (resolve testFileDir) (unresolvedEsModules test)) test.

(** Lines 123-129 as a function of the world: the expected text of a
    snapshot path. *)
Definition loadExpected (w : W) (path : string) : host_result string :=
  if existsSync w path then readFileSync w path else HostOk "".

(** Lines 136-137: the repair of one snapshot in update mode. *)
Definition updateSnapshot (fuel : nat) (path data : string) : M unit :=
  _recursiveMkDir fuel (dirname path) ;;
  do_writeFileSync path data.

(** The calls made while loading the expected text (lines 124-129). *)
Definition loadEvents (w : W) (path : string) : list event :=
  if existsSync w path then [EvExists path; EvRead path] else [EvExists path].

(** The record pushed on a mismatch (lines 133-134). *)
Definition failedExpectation (testFileDir : string) (test : Test)
    (expected result : string) : FailedExpectation :=
  {| testDescription := modulesDescription test;
     diff := createPatch (expectedOutputPath testFileDir test) expected result |}.

(** The progress line and the invocation of one test record. *)
Definition caseProgress (opts : ParsedCliOptions) (testFileDir : string) (test : Test)
  : list event :=
  [EvLog ("Testing " +:+ modulesDescription test);
   EvCheck (caseOptions opts testFileDir test)].

(** A suite evaluated without a fatal error, in the words of the
    specification (4.4 and 7): for each case in order the checker answers and
    the expected text loads; equal texts pass; unequal texts record a failed
    expectation and, in update mode, the snapshot is rewritten. The relation
    holds the world the suite leaves and the failures it collects. *)
Inductive suite_evaluates (fuel : nat) (opts : ParsedCliOptions) (testFileDir : string)
  : W -> list Test -> W -> list FailedExpectation -> Prop :=
| evaluates_nil w :
    suite_evaluates fuel opts testFileDir w [] w []
| evaluates_pass w test rest w1 result w' ms :
    checkSideEffects w (caseOptions opts testFileDir test) = HostOk (w1, result) ->
    loadExpected w1 (expectedOutputPath testFileDir test) = HostOk result ->
    suite_evaluates fuel opts testFileDir w1 rest w' ms ->
    suite_evaluates fuel opts testFileDir w (test :: rest) w' ms
| evaluates_mismatch w test rest w1 result expected w2 w' ms :
    checkSideEffects w (caseOptions opts testFileDir test) = HostOk (w1, result) ->
    loadExpected w1 (expectedOutputPath testFileDir test) = HostOk expected ->
    result <> expected ->
    (if pco_update opts
     then exists t, updateSnapshot fuel (expectedOutputPath testFileDir test) result w1
                    = (w2, t, Return tt)
     else w2 = w1) ->
    suite_evaluates fuel opts testFileDir w2 rest w' ms ->
    suite_evaluates fuel opts testFileDir w (test :: rest) w'
      (failedExpectation testFileDir test expected result :: ms).

(** The calls of the report (lines 142-161) for a list of failures. *)
Definition reportEvents (opts : ParsedCliOptions) (args : list string)
    (failed : list FailedExpectation) : list event :=
  match failed with
  | [] => [EvLog ""; EvLog "All tests passed."]
  | _ :: _ =>
      [EvLog "";
       EvLog ("The following snapshots have changed:" +:+ nl +:+ nl);
       EvLog (join nl (map snapshotChanged failed))] ++
      (if pco_update opts then
         [EvLog (show_nat (length failed) +:+ " test expectations updated." +:+ nl)]
       else
         [EvLog (show_nat (length failed) +:+ " tests failed, see above for diffs.");
          EvLog "To update the expectations, run this command again with the --update flag:";
          EvLog "";
          EvLog ("  " +:+ join " " args +:+ " --update")])
  end.

End Driver.

(** ** A POSIX host

    An instance of [Host] on which the driver can be run: [path.dirname] and
    [path.resolve] of Node on POSIX, a file system of regular files and
    directories keyed by absolute normalised paths (the only paths [main]
    passes to [fs]), and a checker, a descriptor parser and an argument
    parser given as functions. *)
Module Posix.

(** [path.posix.dirname]: scan from the end for the last separator that
    follows a non-separator, never looking at index 0. *)
Fixpoint dirname_scan (path : string) (i : nat) (matchedSlash : bool) : option nat :=
  match i with
  | O => None
  | S i' =>
      match String.get i path with
      | Some "/"%char => if negb matchedSlash then Some i else dirname_scan path i' matchedSlash
      | _ => dirname_scan path i' false
      end
  end.

Definition hasRoot (path : string) : bool :=
  match path with
  | String "/"%char _ => true
  | _ => false
  end.

Definition dirname (path : string) : string :=
  if Nat.eqb (String.length path) 0 then "."
  else
    match dirname_scan path (String.length path - 1) true with
    | None => if hasRoot path then "/" else "."
    | Some e => if hasRoot path && Nat.eqb e 1 then "//" else substring 0 e path
    end.

(** The segments of a path between separators. *)
Fixpoint split_slash (cur : string) (path : string) : list string :=
  match path with
  | EmptyString => [cur]
  | String c rest =>
      if Ascii.eqb c "/"%char then cur :: split_slash "" rest
      else split_slash (cur +:+ String c EmptyString) rest
  end.

(** Normalisation of the segments of an absolute path: empty and [.] segments
    vanish, [..] removes the segment before it and is dropped at the root. *)
Fixpoint normalize_segments (stack : list string) (segs : list string) : list string :=
  match segs with
  | [] => rev stack
  | seg :: rest =>
      if String.eqb seg "" || String.eqb seg "." then normalize_segments stack rest
      else if String.eqb seg ".." then normalize_segments (tail stack) rest
      else normalize_segments (seg :: stack) rest
  end.

Definition normalize_absolute (path : string) : string :=
  "/" +:+ String.concat "/" (normalize_segments [] (split_slash "" path)).

(** [path.posix.resolve(a, b)] in a process whose working directory is the
    absolute path [pcwd]: the arguments are taken from the right until one is
    absolute, empty ones are skipped, and the working directory comes last. *)
Definition resolve (pcwd a b : string) : string :=
  if hasRoot b then normalize_absolute b
  else if hasRoot a then normalize_absolute (a +:+ "/" +:+ b)
  else normalize_absolute (pcwd +:+ "/" +:+ a +:+ "/" +:+ b).

(** Files and directories. *)
Inductive node :=
| File (data : string)
| Dir.

Definition fs : Type := gmap string node.

Definition existsSync (w : fs) (path : string) : bool :=
  match w !! path with
  | Some _ => true
  | None => false
  end.

Definition readFileSync (w : fs) (path : string) : host_result string :=
  match w !! path with
  | Some (File data) => HostOk data
  | Some Dir => HostFail "EISDIR"
  | None => HostFail "ENOENT"
  end.

(** The parent of a new entry must be a directory. *)
Definition create (w : fs) (path : string) (n : node) : host_result fs :=
  match w !! dirname path with
  | Some Dir => HostOk (<[path := n]> w)
  | Some (File _) => HostFail "ENOTDIR"
  | None => HostFail "ENOENT"
  end.

Definition writeFileSync (w : fs) (path data : string) : host_result fs :=
  match w !! path with
  | Some Dir => HostFail "EISDIR"
  | Some (File _) => HostOk (<[path := File data]> w)
  | None => create w path (File data)
  end.

Definition mkdirSync (w : fs) (path : string) : host_result fs :=
  match w !! path with
  | Some _ => HostFail "EEXIST"
  | None => create w path Dir
  end.

(** The options [minimist] yields when no flag is given, in a process whose
    working directory is [pcwd]: the defaults of the table in [main]. *)
Definition defaults (pcwd : string) (positional : list string) : ParsedCliOptions :=
  {| pco_help := false;
     pco_test := None;
     pco_update := false;
     pco_cwd := pcwd;
     pco_output := None;
     pco_propertyReadSideEffects := true;
     pco_resolveExternals := false;
     pco_printDependencies := false;
     pco_useBuildOptimizer := true;
     pco_useMinifier := true;
     pco_warnings := false;
     pco_positional := positional |}.

Definition set_positional (o : ParsedCliOptions) (positional : list string) :=
  {| pco_help := pco_help o; pco_test := pco_test o; pco_update := pco_update o;
     pco_cwd := pco_cwd o; pco_output := pco_output o;
     pco_propertyReadSideEffects := pco_propertyReadSideEffects o;
     pco_resolveExternals := pco_resolveExternals o;
     pco_printDependencies := pco_printDependencies o;
     pco_useBuildOptimizer := pco_useBuildOptimizer o;
     pco_useMinifier := pco_useMinifier o;
     pco_warnings := pco_warnings o;
     pco_positional := positional |}.

Definition set_flag (key : string) (o : ParsedCliOptions) : ParsedCliOptions :=
  {| pco_help := if String.eqb key "--help" then true else pco_help o;
     pco_test := pco_test o;
     pco_update := if String.eqb key "--update" then true else pco_update o;
     pco_cwd := pco_cwd o; pco_output := pco_output o;
     pco_propertyReadSideEffects := pco_propertyReadSideEffects o;
     pco_resolveExternals := pco_resolveExternals o;
     pco_printDependencies := pco_printDependencies o;
     pco_useBuildOptimizer := pco_useBuildOptimizer o;
     pco_useMinifier := pco_useMinifier o;
     pco_warnings := pco_warnings o;
     pco_positional := pco_positional o |}.

Definition set_string (key value : string) (o : ParsedCliOptions) : ParsedCliOptions :=
  {| pco_help := pco_help o;
     pco_test := if String.eqb key "--test" then Some value else pco_test o;
     pco_update := pco_update o;
     pco_cwd := if String.eqb key "--cwd" then value else pco_cwd o;
     pco_output := if String.eqb key "--output" then Some value else pco_output o;
     pco_propertyReadSideEffects := pco_propertyReadSideEffects o;
     pco_resolveExternals := pco_resolveExternals o;
     pco_printDependencies := pco_printDependencies o;
     pco_useBuildOptimizer := pco_useBuildOptimizer o;
     pco_useMinifier := pco_useMinifier o;
     pco_warnings := pco_warnings o;
     pco_positional := pco_positional o |}.

(** The argument vectors of the examples: the tokens [--help] and [--update],
    the pairs [--test path], [--cwd path] and [--output path], and tokens
    without a leading dash, which are positional. Other vectors are outside
    this parser. *)
Fixpoint parse_args (args : list string) (o : ParsedCliOptions) : ParsedCliOptions :=
  match args with
  | [] => o
  | key :: rest =>
      if String.eqb key "--help" || String.eqb key "--update" then
        parse_args rest (set_flag key o)
      else if String.eqb key "--test" || String.eqb key "--cwd" || String.eqb key "--output" then
        match rest with
        | value :: rest' => parse_args rest' (set_string key value o)
        | [] => set_string key "" o
        end
      else parse_args rest (set_positional o (pco_positional o ++ [key]))
  end.

Definition minimist (pcwd : string) (args : list string) : ParsedCliOptions :=
  parse_args args (defaults pcwd []).

(** The host: [pcwd] is the working directory of the process, [parse] stands
    for [JSON.parse] on descriptors, [patch] for [createPatch] and [checker]
    for [checkSideEffects], which here leaves the file system alone. *)
Definition host (pcwd : string)
    (parse : string -> host_result TestJson)
    (patch : string -> string -> string -> string)
    (checker : fs -> CheckSideEffectsOptions -> host_result string) : Host fs :=
  Build_Host fs (minimist pcwd) (resolve pcwd) dirname
    existsSync readFileSync writeFileSync mkdirSync parse patch
    (fun w o =>
       match checker w o with
       | HostOk r => HostOk (w, r)
       | HostFail msg => HostFail msg
       end).

End Posix.

(** ** A sample suite

    A descriptor with three cases in [/w/t]: the snapshot of the first is
    missing, the second is up to date, the third is missing together with its
    directories. *)
Module Sample.

Definition suite : TestJson :=
  {| tests :=
       [ {| esModules := OneModule "a.js"; options := None;
            expectedOutput := "a.snap" |};
         {| esModules := ModuleArray ["b.js"; "c.js"]; options := None;
            expectedOutput := "b.snap" |};
         {| esModules := OneModule "d.js"; options := None;
            expectedOutput := "snaps/new/d.snap" |} ] |}.

Definition parse (text : string) : host_result TestJson :=
  if String.eqb text "suite" then HostOk suite else HostFail "SyntaxError".

Definition patch (path old new : string) : string :=
  "--- " +:+ path +:+ nl +:+ "-" +:+ old +:+ nl +:+ "+" +:+ new.

Definition checker (w : Posix.fs) (o : CheckSideEffectsOptions) : host_result string :=
  HostOk ("effects of " +:+ join " " (cse_esModules o)).

Definition host : Host Posix.fs := Posix.host "/w" parse patch checker.

Definition world : Posix.fs :=
  <["/" := Posix.Dir]>
  (<["/w" := Posix.Dir]>
  (<["/w/t" := Posix.Dir]>
  (<["/w/t/tests.json" := Posix.File "suite"]>
  (<["/w/t/b.snap" := Posix.File "effects of /w/t/b.js /w/t/c.js"]> ∅)))).

Definition args : list string :=
  ["/usr/bin/node"; "/path/cli.js"; "--test"; "t/tests.json"].

Definition args_update : list string := args ++ ["--update"].

(** What [minimist] gives for these vectors, and the directory of the
    descriptor. *)
Definition opts : ParsedCliOptions := Posix.minimist "/w" args.
Definition opts_update : ParsedCliOptions := Posix.minimist "/w" args_update.
Definition dir : string := "/w/t".

Definition case_a : Test :=
  {| esModules := OneModule "a.js"; options := None; expectedOutput := "a.snap" |}.
Definition case_b : Test :=
  {| esModules := ModuleArray ["b.js"; "c.js"]; options := None;
     expectedOutput := "b.snap" |}.
Definition case_d : Test :=
  {| esModules := OneModule "d.js"; options := None;
     expectedOutput := "snaps/new/d.snap" |}.

(** The failures of the two cases without a snapshot. *)
Definition failure_a : FailedExpectation :=
  {| testDescription := "a.js";
     diff := patch "/w/t/a.snap" "" "effects of /w/t/a.js" |}.
Definition failure_d : FailedExpectation :=
  {| testDescription := "d.js";
     diff := patch "/w/t/snaps/new/d.snap" "" "effects of /w/t/d.js" |}.

(** The world after the first snapshot is written, and after the update run. *)
Definition world_a : Posix.fs :=
  <["/w/t/a.snap" := Posix.File "effects of /w/t/a.js"]> world.

Definition world_updated : Posix.fs :=
  <["/w/t/snaps/new/d.snap" := Posix.File "effects of /w/t/d.js"]>
  (<["/w/t/snaps/new" := Posix.Dir]>
  (<["/w/t/snaps" := Posix.Dir]> world_a)).

End Sample.

(** ** Further definitions for the properties of the driver *)

Section Ancestors.

Context {W : Type} `{Host W}.

(** The first [n] paths of the chain [path], [dirname path], ...: the paths
    [_recursiveMkDir] probes in turn. *)
Fixpoint ancestors (n : nat) (path : string) : list string :=
  match n with
  | O => []
  | S n' => path :: ancestors n' (dirname path)
  end.

End Ancestors.

(** A computation that, from every world, makes no [writeFileSync] and no
    [mkdirSync] call. *)
Definition no_mutation {W A} (m : M W A) : Prop :=
  forall w, writes (m w).1.2 = [] /\ mkdirs (m w).1.2 = [].

(** More sample data: a suite whose only case is up to date, options that
    differ from [Sample.opts] in every field the loop does not read, and a
    host whose checker fails on the third case of [Sample.suite]. *)
Module SampleExtra.

Definition passing : TestJson := {| tests := [Sample.case_b] |}.

Definition opts_toggled : ParsedCliOptions :=
  {| pco_help := false;
     pco_test := Some "other.json";
     pco_update := false;
     pco_cwd := "/w";
     pco_output := Some "bundle.js";
     pco_propertyReadSideEffects := false;
     pco_resolveExternals := true;
     pco_printDependencies := true;
     pco_useBuildOptimizer := false;
     pco_useMinifier := false;
     pco_warnings := true;
     pco_positional := ["x.js"] |}.

Definition checker_failing (w : Posix.fs) (o : CheckSideEffectsOptions)
  : host_result string :=
  if String.eqb (join " " (cse_esModules o)) "/w/t/d.js" then HostFail "bundle error"
  else Sample.checker w o.

Definition host_failing : Host Posix.fs :=
  Posix.host "/w" Sample.parse Sample.patch checker_failing.

(** Directories of the POSIX file system. *)
Definition isDir (w : Posix.fs) (path : string) : Prop :=
  w !! path = Some Posix.Dir.

End SampleExtra.

(** * Properties *)

(** ** Strings *)

Lemma substring_0_length s : substring 0 (String.length s) s = s.
Proof. induction s as [|c s IH]; cbn; congruence. Qed.

Lemma substring_append_skip pre s m :
  substring (String.length pre) m (pre +:+ s) = substring 0 m s.
Proof. induction pre as [|c pre IH]; cbn; auto. Qed.

Lemma length_append (a b : string) :
  String.length (a +:+ b) = String.length a + String.length b.
Proof.
  induction a as [|c a IH]; [reflexivity|].
  change (String c a +:+ b) with (String c (a +:+ b)).
  cbn [String.length Nat.add]. f_equal. exact IH.
Qed.

Lemma substring_split s : forall a,
  a <= String.length s ->
  s = substring 0 a s +:+ substring a (String.length s - a) s.
Proof.
  induction s as [|c s IH]; intros [|a] Hle; cbn in *; try lia.
  - reflexivity.
  - rewrite substring_0_length. reflexivity.
  - change (String c s = String c (substring 0 a s +:+ substring a (String.length s - a) s)).
    rewrite <- IH by lia. reflexivity.
Qed.

(** [endsWith] holds exactly of the strings that are a prefix followed by the
    suffix. *)
Lemma endsWith_spec str suffix :
  endsWith str suffix = true <-> exists pre, str = pre +:+ suffix.
Proof.
  unfold endsWith. split.
  - remember (String.length suffix) as k eqn:Hk.
    destruct (Nat.leb_spec k (String.length str)) as [Hle|]; [|discriminate].
    intros Heq%String.eqb_eq.
    exists (substring 0 (String.length str - k) str).
    pose proof (substring_split str (String.length str - k) ltac:(lia)) as Hs.
    replace (String.length str - (String.length str - k)) with k in Hs by lia.
    rewrite Heq in Hs. exact Hs.
  - intros [pre ->]. rewrite length_append.
    destruct (Nat.leb_spec (String.length suffix)
                (String.length pre + String.length suffix)); [|lia].
    replace (String.length pre + String.length suffix - String.length suffix)
      with (String.length pre) by lia.
    rewrite substring_append_skip, substring_0_length. apply String.eqb_refl.
Qed.

Lemma isNodeBinary_spec str :
  isNodeBinary str = true <->
  exists pre, str = pre +:+ "node" \/ str = pre +:+ "node.exe".
Proof.
  unfold isNodeBinary. rewrite orb_true_iff, !endsWith_spec.
  split.
  - intros [[pre ->]|[pre ->]]; eauto.
  - intros [pre [->| ->]]; eauto.
Qed.

Section DriverFacts.

Context {W : Type} `{Host W}.

Implicit Types (w : W) (t : list event) (path : string) (fuel : nat).

Ltac conjs := repeat match goal with |- _ /\ _ => split end.

(** ** The monad *)

Lemma bind_Return {A B} (m : M W A) (k : A -> M W B) w w1 t1 a :
  m w = (w1, t1, Return a) ->
  bind m k w = (let '(w2, t2, r) := k a w1 in (w2, t1 ++ t2, r)).
Proof. intros Hm. unfold bind. rewrite Hm. reflexivity. Qed.

Lemma bind_Throw {A B} (m : M W A) (k : A -> M W B) w w1 t1 e :
  m w = (w1, t1, Throw e) -> bind m k w = (w1, t1, Throw e).
Proof. intros Hm. unfold bind. rewrite Hm. reflexivity. Qed.

Lemma bind_OutOfFuel {A B} (m : M W A) (k : A -> M W B) w w1 t1 :
  m w = (w1, t1, OutOfFuel) -> bind m k w = (w1, t1, OutOfFuel).
Proof. intros Hm. unfold bind. rewrite Hm. reflexivity. Qed.

(** ** [_recursiveMkDir] *)

Lemma recursiveMkDir_S fuel path w :
  _recursiveMkDir (S fuel) path w =
  if existsSync w path then (w, [EvExists path], Return tt)
  else
    match _recursiveMkDir fuel (dirname path) w with
    | (w1, t1, Return _) =>
        match mkdirSync w1 path with
        | HostOk w2 => (w2, EvExists path :: t1 ++ [EvMkdir path], Return tt)
        | HostFail msg => (w1, EvExists path :: t1 ++ [EvMkdir path], Throw (HostError msg))
        end
    | (w1, t1, Throw e) => (w1, EvExists path :: t1, Throw e)
    | (w1, t1, OutOfFuel) => (w1, EvExists path :: t1, OutOfFuel)
    end.
Proof.
  cbn [_recursiveMkDir]. unfold bind at 1. unfold do_existsSync at 1.
  destruct (existsSync w path); cbn [negb].
  - reflexivity.
  - unfold bind, do_mkdirSync.
    destruct (_recursiveMkDir fuel (dirname path) w) as [[w1 t1] [[]|e|]]; cbn.
    + destruct (mkdirSync w1 path); reflexivity.
    + reflexivity.
    + reflexivity.
Qed.

(** With an existing ancestor [n] steps up, more than [n] units of fuel are
    never exhausted, and more fuel does not change the run. *)
Lemma recursiveMkDir_enough_fuel n : forall path w fuel,
  existsSync w (Nat.iter n dirname path) = true ->
  n < fuel ->
  (_recursiveMkDir fuel path w).2 <> OutOfFuel /\
  _recursiveMkDir fuel path w = _recursiveMkDir (S n) path w.
Proof.
  induction n as [|n IH]; intros path w fuel Hex Hlt.
  - destruct fuel as [|fuel]; [lia|]. cbn in Hex.
    rewrite !recursiveMkDir_S, Hex. split; [discriminate | reflexivity].
  - destruct fuel as [|fuel]; [lia|].
    rewrite Nat.iter_succ_r in Hex.
    destruct (IH (dirname path) w fuel Hex ltac:(lia)) as [Hne Heq].
    rewrite (recursiveMkDir_S fuel), (recursiveMkDir_S (S n)).
    destruct (existsSync w path); [split; [discriminate | reflexivity]|].
    rewrite Heq in *.
    destruct (_recursiveMkDir (S n) (dirname path) w) as [[w1 t1] [[]|e|]];
      cbn in Hne; [| |congruence].
    + destruct (mkdirSync w1 path); split; (discriminate || reflexivity).
    + split; [discriminate | reflexivity].
Qed.

(** [_recursiveMkDir] calls only [existsSync] and [mkdirSync]. *)
Lemma recursiveMkDir_calls fuel : forall path w,
  let t := (_recursiveMkDir fuel path w).1.2 in
  logs t = [] /\ checks t = [] /\ writes t = [].
Proof.
  induction fuel as [|fuel IH]; intros path w; [cbn; auto|].
  cbn zeta. rewrite recursiveMkDir_S.
  destruct (existsSync w path); [cbn; auto|].
  specialize (IH (dirname path) w). cbn zeta in IH.
  destruct (_recursiveMkDir fuel (dirname path) w) as [[w1 t1] [[]|e|]];
    cbn [fst snd] in IH; destruct IH as (Hl & Hc & Hw).
  - unfold logs, checks, writes in *.
    destruct (mkdirSync w1 path); cbn [fst snd]; cbn;
      rewrite !omap_app, Hl, Hc, Hw; cbn; auto.
  - unfold logs, checks, writes in *. cbn. auto.
  - unfold logs, checks, writes in *. cbn. auto.
Qed.

(** ** One iteration of the loop *)

Lemma updateSnapshot_calls fuel path data w :
  let t := (updateSnapshot fuel path data w).1.2 in
  logs t = [] /\ checks t = [] /\
  (writes t = [] \/ writes t = [(path, data)]).
Proof.
  cbn zeta. unfold updateSnapshot, bind.
  pose proof (recursiveMkDir_calls fuel (dirname path) w) as Hc. cbn zeta in Hc.
  destruct (_recursiveMkDir fuel (dirname path) w) as [[w1 t1] [[]|e|]];
    cbn [fst snd] in *; destruct Hc as (Hl & Hk & Hw); try tauto.
  unfold do_writeFileSync.
  destruct (writeFileSync w1 path data); cbn [fst snd];
    unfold logs, checks, writes in *; rewrite !omap_app, Hl, Hk, Hw; cbn; auto.
Qed.

(** The iteration, case by case on what the collaborators answer. *)
Lemma loop_body_eq fuel opts dir failed test w :
  loop_body fuel opts dir failed test w =
  let p := expectedOutputPath dir test in
  let o := caseOptions opts dir test in
  let line := EvLog ("Testing " +:+ modulesDescription test) in
  match checkSideEffects w o with
  | HostFail msg => (w, [line; EvCheck o], Throw (HostError msg))
  | HostOk (w1, result) =>
      let pre := [line; EvCheck o] ++ loadEvents w1 p in
      match loadExpected w1 p with
      | HostFail msg => (w1, pre, Throw (HostError msg))
      | HostOk expected =>
          if String.eqb result expected then (w1, pre, Return failed)
          else if pco_update opts then
            match updateSnapshot fuel p result w1 with
            | (w2, t2, Return _) =>
                (w2, pre ++ t2,
                 Return (failed ++ [failedExpectation dir test expected result]))
            | (w2, t2, Throw e) => (w2, pre ++ t2, Throw e)
            | (w2, t2, OutOfFuel) => (w2, pre ++ t2, OutOfFuel)
            end
          else (w1, pre, Return (failed ++ [failedExpectation dir test expected result]))
      end
  end.
Proof.
  cbn zeta. unfold loop_body.
  fold (modulesDescription test). fold (caseOptions opts dir test).
  fold (expectedOutputPath dir test).
  set (p := expectedOutputPath dir test). set (o := caseOptions opts dir test).
  unfold bind at 1. unfold console_log at 1.
  unfold bind at 1. unfold do_checkSideEffects at 1.
  destruct (checkSideEffects w o) as [[w1 result]|msg]; [|reflexivity].
  unfold bind at 1. unfold do_existsSync at 1.
  unfold loadEvents, loadExpected.
  destruct (existsSync w1 p).
  - unfold bind at 1. unfold do_readFileSync at 1.
    destruct (readFileSync w1 p) as [expected|msg]; [|reflexivity].
    destruct (String.eqb result expected); cbn [negb]; [reflexivity|].
    destruct (pco_update opts).
    + fold (updateSnapshot fuel p result). unfold bind at 1.
      unfold failedExpectation. fold p.
      destruct (updateSnapshot fuel p result w1) as [[w2 t2] [[]|e|]]; cbn;
        rewrite ?app_nil_r; reflexivity.
    + reflexivity.
  - unfold bind at 1. unfold ret at 1.
    destruct (String.eqb result ""); cbn [negb]; [reflexivity|].
    destruct (pco_update opts).
    + fold (updateSnapshot fuel p result). unfold bind at 1.
      unfold failedExpectation. fold p.
      destruct (updateSnapshot fuel p result w1) as [[w2 t2] [[]|e|]]; cbn;
        rewrite ?app_nil_r; reflexivity.
    + reflexivity.
Qed.

Lemma progress_app t1 t2 : progress (t1 ++ t2) = progress t1 ++ progress t2.
Proof. apply List.filter_app. Qed.

Lemma progress_nil t : logs t = [] -> checks t = [] -> progress t = [].
Proof.
  induction t as [|e t IH]; [reflexivity|].
  destruct e; cbn; intros Hl Hc; try discriminate; auto.
Qed.

Lemma recursiveMkDir_throws fuel : forall path w e,
  (_recursiveMkDir fuel path w).2 = Throw e -> exists msg, e = HostError msg.
Proof.
  induction fuel as [|fuel IH]; intros path w e; [discriminate|].
  rewrite recursiveMkDir_S. destruct (existsSync w path); [discriminate|].
  specialize (IH (dirname path) w).
  destruct (_recursiveMkDir fuel (dirname path) w) as [[w1 t1] [[]|e1|]]; cbn in *.
  - destruct (mkdirSync w1 path); cbn; [discriminate|]. intros [= <-]. eauto.
  - intros [= <-]. eauto.
  - discriminate.
Qed.

Lemma updateSnapshot_throws fuel path data w e :
  (updateSnapshot fuel path data w).2 = Throw e -> exists msg, e = HostError msg.
Proof.
  unfold updateSnapshot, bind.
  pose proof (recursiveMkDir_throws fuel (dirname path) w) as Ht.
  destruct (_recursiveMkDir fuel (dirname path) w) as [[w1 t1] [[]|e1|]]; cbn in *.
  - unfold do_writeFileSync. destruct (writeFileSync w1 path data); cbn;
      [discriminate|]. intros [= <-]. eauto.
  - intros [= <-]. eauto.
  - discriminate.
Qed.

Lemma loadEvents_calls w path :
  logs (loadEvents w path) = [] /\ checks (loadEvents w path) = [] /\
  writes (loadEvents w path) = [] /\ mkdirs (loadEvents w path) = [] /\
  hd_error (probes (loadEvents w path)) = Some path.
Proof. unfold loadEvents. destruct (existsSync w path); cbn; auto. Qed.

(** What one iteration does, whatever the collaborators answer. *)
Lemma loop_body_summary fuel opts dir failed test w :
  let '(w', t, r) := loop_body fuel opts dir failed test w in
  progress t = caseProgress opts dir test /\
  (forall e, r = Throw e -> exists msg, e = HostError msg) /\
  (r = OutOfFuel -> pco_update opts = true) /\
  (forall failed', r = Return failed' ->
     hd_error (probes (drop 2 t)) = Some (expectedOutputPath dir test) /\
     (failed' = failed \/
      exists expected result,
        result <> expected /\
        failed' = failed ++ [failedExpectation dir test expected result])).
Proof.
  rewrite loop_body_eq. cbn zeta.
  destruct (checkSideEffects w (caseOptions opts dir test)) as [[w1 result]|msg].
  2: { conjs; try discriminate; [reflexivity|]. intros e [= <-]. eauto. }
  destruct (loadEvents_calls w1 (expectedOutputPath dir test))
    as (Hl & Hc & Hw & Hm & Hp).
  assert (Hpre : progress ([EvLog ("Testing " +:+ modulesDescription test);
                            EvCheck (caseOptions opts dir test)]
                           ++ loadEvents w1 (expectedOutputPath dir test))
                 = caseProgress opts dir test).
  { rewrite progress_app, (progress_nil _ Hl Hc). reflexivity. }
  destruct (loadExpected w1 (expectedOutputPath dir test)) as [expected|msg].
  2: { conjs; try discriminate; [assumption|]. intros e [= <-]. eauto. }
  destruct (String.eqb_spec result expected) as [Heq|Hne].
  { conjs; try discriminate; [assumption|]. intros f [= <-]. auto. }
  destruct (pco_update opts) eqn:Hupd.
  2: { conjs; try discriminate; [assumption|]. intros f [= <-]. split; [auto|]. right. eauto. }
  pose proof (updateSnapshot_calls fuel (expectedOutputPath dir test) result w1) as Hu.
  pose proof (updateSnapshot_throws fuel (expectedOutputPath dir test) result w1) as Ht.
  cbn zeta in Hu.
  destruct (updateSnapshot fuel (expectedOutputPath dir test) result w1)
    as [[w2 t2] [[]|e|]]; cbn [fst snd] in *; destruct Hu as (Hl2 & Hc2 & _).
  all: conjs; try discriminate.
  all: try (rewrite progress_app, Hpre, (progress_nil _ Hl2 Hc2), app_nil_r;
            reflexivity).
  all: try (intros _; reflexivity).
  - intros f [= <-]. split; [|right; eauto].
    cbn [drop app]. rewrite drop_0. unfold probes. rewrite omap_app.
    unfold probes in Hp.
    destruct (omap _ (loadEvents w1 (expectedOutputPath dir test)));
      cbn in *; congruence.
  - intros e0 [= <-]. apply Ht. reflexivity.
Qed.

(** ** The loop *)

Lemma loop_cons fuel opts dir failed test rest w :
  loop fuel opts dir failed (test :: rest) w =
  match loop_body fuel opts dir failed test w with
  | (w1, t1, Return failed1) =>
      let '(w2, t2, r) := loop fuel opts dir failed1 rest w1 in (w2, t1 ++ t2, r)
  | (w1, t1, Throw e) => (w1, t1, Throw e)
  | (w1, t1, OutOfFuel) => (w1, t1, OutOfFuel)
  end.
Proof. reflexivity. Qed.

Lemma probes_app t1 t2 : probes (t1 ++ t2) = probes t1 ++ probes t2.
Proof. apply omap_app. Qed.

Lemma head_sublist {A} (x : A) (l : list A) : head l = Some x -> [x] `sublist_of` l.
Proof.
  destruct l as [|y l]; [discriminate|]. intros [= ->].
  apply sublist_skip, sublist_nil_l.
Qed.

(** What the loop does, whatever the collaborators answer. *)
Lemma loop_summary fuel opts dir tests : forall failed w,
  let '(w', t, r) := loop fuel opts dir failed tests w in
  progress t `prefix_of` flat_map (caseProgress opts dir) tests /\
  (forall e, r = Throw e -> exists msg, e = HostError msg) /\
  (r = OutOfFuel -> pco_update opts = true) /\
  (forall failed', r = Return failed' ->
     progress t = flat_map (caseProgress opts dir) tests /\
     map (expectedOutputPath dir) tests `sublist_of` probes t /\
     exists new, failed' = failed ++ new /\ length new <= length tests).
Proof.
  induction tests as [|test rest IH]; intros failed w.
  - cbn. conjs; try discriminate.
    + apply prefix_nil.
    + intros f [= <-]. conjs; [reflexivity | constructor |].
      exists []. rewrite app_nil_r. auto.
  - rewrite loop_cons.
    pose proof (loop_body_summary fuel opts dir failed test w) as Hb.
    destruct (loop_body fuel opts dir failed test w) as [[w1 t1] [failed1|e|]];
      destruct Hb as (Hp & He & Hf & Hr).
    + specialize (IH failed1 w1).
      destruct (loop fuel opts dir failed1 rest w1) as [[w2 t2] r].
      destruct IH as (IHp & IHe & IHf & IHr).
      destruct (Hr failed1 eq_refl) as (Hprobe & Hfailed).
      rewrite progress_app, Hp. cbn [flat_map].
      split; [apply prefix_app, IHp|]. split; [exact IHe|]. split; [exact IHf|].
      { intros f Hf'. destruct (IHr f Hf') as (IHq & IHs & new & -> & Hlen).
        conjs.
        -- rewrite IHq. reflexivity.
        -- rewrite <- (take_drop 2 t1), <- app_assoc, !probes_app. cbn [map].
           apply sublist_inserts_l.
           change (expectedOutputPath dir test :: map (expectedOutputPath dir) rest)
             with ([expectedOutputPath dir test] ++ map (expectedOutputPath dir) rest).
           apply sublist_app; [apply head_sublist, Hprobe | exact IHs].
        -- destruct Hfailed as [->|(expected & result & _ & ->)].
           ++ exists new. split; [reflexivity | cbn; lia].
           ++ eexists (_ :: new). rewrite <- app_assoc. split; [reflexivity | cbn; lia]. }
    + rewrite Hp. cbn [flat_map]. conjs; try discriminate; auto.
      apply prefix_app_r. reflexivity.
    + rewrite Hp. cbn [flat_map]. conjs; try discriminate; auto.
      apply prefix_app_r. reflexivity.
Qed.

(** The loop refines the evaluation of the specification: when no collaborator
    fails, it returns, in the world and with the failures of [suite_evaluates]. *)
Lemma loop_evaluates fuel opts dir w tests w' ms :
  suite_evaluates fuel opts dir w tests w' ms ->
  forall failed, exists t,
    loop fuel opts dir failed tests w = (w', t, Return (failed ++ ms)).
Proof.
  induction 1 as [w | w test rest w1 result w' ms Hc Hl _ IH
                    | w test rest w1 result expected w2 w' ms Hc Hl Hne Hu _ IH];
    intros failed.
  - exists []. cbn. rewrite app_nil_r. reflexivity.
  - rewrite loop_cons, loop_body_eq. cbn zeta. rewrite Hc, Hl, String.eqb_refl.
    destruct (IH failed) as [t ->]. eauto.
  - rewrite loop_cons, loop_body_eq. cbn zeta. rewrite Hc, Hl.
    destruct (String.eqb_spec result expected) as [?|_]; [contradiction|].
    destruct (pco_update opts).
    + destruct Hu as [tu ->].
      destruct (IH (failed ++ [failedExpectation dir test expected result])) as [t ->].
      rewrite <- (app_assoc failed). eexists. reflexivity.
    + subst w2.
      destruct (IH (failed ++ [failedExpectation dir test expected result])) as [t ->].
      rewrite <- (app_assoc failed). eexists. reflexivity.
Qed.

(** Without update mode a suite evaluates as soon as, along the run, the
    checker answers and the expected text loads: [Inv] is any invariant of the
    worlds the checker leaves. *)
Lemma suite_evaluates_without_update (Inv : W -> Prop) fuel opts dir tests :
  pco_update opts = false ->
  (forall w test, Inv w -> In test tests ->
     exists w1 result expected,
       checkSideEffects w (caseOptions opts dir test) = HostOk (w1, result) /\
       loadExpected w1 (expectedOutputPath dir test) = HostOk expected /\
       Inv w1) ->
  forall w, Inv w -> exists w' ms, suite_evaluates fuel opts dir w tests w' ms.
Proof.
  intros Hu. induction tests as [|test rest IH]; intros Hhost w Hinv.
  - exists w, []. constructor.
  - destruct (Hhost w test Hinv (or_introl eq_refl))
      as (w1 & result & expected & Hc & Hl & Hinv1).
    destruct (IH (fun w0 c0 Hi Hin => Hhost w0 c0 Hi (or_intror Hin)) w1 Hinv1)
      as (w' & ms & Hev).
    destruct (String.eqb_spec result expected) as [->|Hne].
    + exists w', ms. eapply evaluates_pass; eassumption.
    + exists w', (failedExpectation dir test expected result :: ms).
      eapply evaluates_mismatch with (w2 := w1); try eassumption.
      rewrite Hu. reflexivity.
Qed.

(** ** The report and the suite run *)

Lemma report_eq opts args failed w :
  report opts args failed w =
  (w, reportEvents opts args failed,
   match failed with
   | [] => Return tt
   | _ :: _ => if pco_update opts then Return tt else Throw (ThrowString "")
   end).
Proof.
  unfold report, reportEvents, bind, console_log, throw.
  destruct failed as [|f failed]; [reflexivity|].
  cbn [length Nat.ltb Nat.leb]. destruct (pco_update opts); reflexivity.
Qed.

Lemma run_suite_eq fuel opts args dir json w :
  run_suite fuel opts args dir json w =
  match loop fuel opts dir [] (tests json) w with
  | (w1, t1, Return failed) =>
      (w1, t1 ++ reportEvents opts args failed,
       match failed with
       | [] => Return tt
       | _ :: _ => if pco_update opts then Return tt else Throw (ThrowString "")
       end)
  | (w1, t1, Throw e) => (w1, t1, Throw e)
  | (w1, t1, OutOfFuel) => (w1, t1, OutOfFuel)
  end.
Proof.
  unfold run_suite, bind.
  destruct (loop fuel opts dir [] (tests json) w) as [[w1 t1] [failed|e|]];
    [|reflexivity..].
  rewrite report_eq. reflexivity.
Qed.

(** [main] in suite mode, once the descriptor is found, read and parsed. *)
Lemma main_suite fuel args w test text json :
  pco_help (minimist args) = false ->
  pco_test (minimist args) = Some test ->
  test <> "" ->
  let testFilePath := resolve (pco_cwd (minimist args)) test in
  existsSync w testFilePath = true ->
  readFileSync w testFilePath = HostOk text ->
  JSON_parse text = HostOk json ->
  main fuel args w =
  let '(w', t, r) :=
    run_suite fuel (minimist args) args (dirname testFilePath) json w in
  (w',
   [EvExists testFilePath;
    EvLog ("Loading tests from " +:+ testFilePath +:+ nl);
    EvRead testFilePath] ++ t,
   match r with
   | Return _ => Return None
   | Throw e => Throw e
   | OutOfFuel => OutOfFuel
   end).
Proof.
  intros Hh Ht Hne testFilePath Hex Hrd Hjs.
  unfold main. rewrite Hh, Ht. cbn [truthy from_option]. unfold id.
  destruct (String.eqb_spec test "") as [?|_]; [contradiction|]. cbn [negb].
  unfold suite_mode. fold testFilePath.
  unfold bind at 1. unfold bind at 1. unfold do_existsSync at 1. rewrite Hex.
  cbn [negb]. unfold bind at 1. unfold console_log at 1.
  unfold bind at 1. unfold do_readFileSync at 1. rewrite Hrd.
  unfold bind at 1. unfold do_JSON_parse at 1. rewrite Hjs.
  destruct (run_suite fuel (minimist args) args (dirname testFilePath) json w)
    as [[w' t] [[]|e|]]; cbn; rewrite ?app_nil_r; reflexivity.
Qed.

(** [main] in a single run. *)
Lemma main_single fuel args w :
  pco_help (minimist args) = false ->
  truthy (pco_test (minimist args)) = false ->
  main fuel args w =
  match single_mode (minimist args) w with
  | (w', t, Return r) => (w', t, Return (Some r))
  | (w', t, Throw e) => (w', t, Throw e)
  | (w', t, OutOfFuel) => (w', t, OutOfFuel)
  end.
Proof.
  intros Hh Ht. unfold main. rewrite Hh, Ht. unfold bind.
  destruct (single_mode (minimist args) w) as [[w' t] [r|e|]]; cbn;
    rewrite ?app_nil_r; reflexivity.
Qed.

(** Without a positional token [options._[0]] is [undefined] and the run ends
    in a TypeError before the module list exists. *)
Lemma main_without_positional fuel args w :
  pco_help (minimist args) = false ->
  truthy (pco_test (minimist args)) = false ->
  pco_positional (minimist args) = [] ->
  main fuel args w =
  (w, [], Throw (TypeError "Cannot read properties of undefined (reading 'endsWith')")).
Proof.
  intros Hh Ht Hp. rewrite main_single by assumption.
  unfold single_mode, single_esModules, bind. rewrite Hp. reflexivity.
Qed.

Lemma checks_progress t : checks (progress t) = checks t.
Proof.
  induction t as [|e t IH]; [reflexivity|].
  unfold checks, progress in *. destruct e; cbn in *; congruence.
Qed.

Lemma logs_progress t : logs (progress t) = logs t.
Proof.
  induction t as [|e t IH]; [reflexivity|].
  unfold logs, progress in *. destruct e; cbn in *; congruence.
Qed.

(** ** The claims *)

(** C10. [_recursiveMkDir] terminates on every path with an existing ancestor
    under [dirname]: if the path [n] steps up exists, any fuel above [n] gives
    the run that fuel [n + 1] gives, and that run is not cut short. When the
    path itself exists ([n = 0]) the file system is not touched: the only
    call is the [existsSync] probe and the world is returned as it was. *)
Theorem recursiveMkDir_terminates_and_keeps_existing w path n :
  existsSync w (Nat.iter n dirname path) = true ->
  (forall fuel, n < fuel ->
     (_recursiveMkDir fuel path w).2 <> OutOfFuel /\
     _recursiveMkDir fuel path w = _recursiveMkDir (S n) path w) /\
  (n = 0 -> forall fuel,
     _recursiveMkDir (S fuel) path w = (w, [EvExists path], Return tt)).
Proof.
  intros Hex. split.
  - intros fuel Hlt. apply recursiveMkDir_enough_fuel; assumption.
  - intros -> fuel. cbn in Hex. rewrite recursiveMkDir_S, Hex. reflexivity.
Qed.

(** C3. When the snapshot file of a case does not exist after the checker has
    answered, the iteration does not read it and does not raise for it: the
    result is compared with the empty string, and on a mismatch the failure
    recorded carries [createPatch(path, '', result)], the patch that turns the
    empty text into the whole actual text. *)
Theorem missing_snapshot_compares_to_empty fuel opts dir failed test w w1 result :
  checkSideEffects w (caseOptions opts dir test) = HostOk (w1, result) ->
  existsSync w1 (expectedOutputPath dir test) = false ->
  let p := expectedOutputPath dir test in
  let calls := [EvLog ("Testing " +:+ modulesDescription test);
                EvCheck (caseOptions opts dir test); EvExists p] in
  let record := {| testDescription := modulesDescription test;
                   diff := createPatch p "" result |} in
  loadExpected w1 p = HostOk "" /\
  loop_body fuel opts dir failed test w =
    if String.eqb result "" then (w1, calls, Return failed)
    else if pco_update opts then
      match updateSnapshot fuel p result w1 with
      | (w2, t2, Return _) => (w2, calls ++ t2, Return (failed ++ [record]))
      | (w2, t2, Throw e) => (w2, calls ++ t2, Throw e)
      | (w2, t2, OutOfFuel) => (w2, calls ++ t2, OutOfFuel)
      end
    else (w1, calls, Return (failed ++ [record])).
Proof.
  intros Hc Hex p calls record.
  assert (Hl : loadExpected w1 p = HostOk "").
  { unfold loadExpected, p. rewrite Hex. reflexivity. }
  split; [exact Hl|].
  rewrite loop_body_eq. cbn zeta. rewrite Hc. fold p. rewrite Hl.
  unfold loadEvents. fold p in Hex. rewrite Hex. reflexivity.
Qed.

(** Once line 166 has computed the module list of a single run (no help, no
    test descriptor) and that list is empty, [main] throws the message that at
    least one ES module must be provided, before any call on the checker or
    the file system. *)
Theorem no_module_is_configuration_error fuel args w :
  pco_help (minimist args) = false ->
  truthy (pco_test (minimist args)) = false ->
  single_esModules (minimist args) w = (w, [], Return []) ->
  main fuel args w =
  (w, [], Throw (ThrowString
     "You must provide at least one ES module. Use --help for usage information.")).
Proof.
  intros Hh Ht Hm. rewrite main_single by assumption.
  unfold single_mode, bind. rewrite Hm. reflexivity.
Qed.

(** C5. A single run must fail with the message that at least one ES module
    must be provided whenever no module is supplied. The code misses the case
    of an argument vector without any positional token: [options._[0]] is
    then [undefined], [isNodeBinary] calls [endsWith] on it at line 192, and
    [main] ends in that TypeError before the module list of line 166 exists
    and before the length check of line 168; it does not throw the message. *)
Theorem zero_positional_tokens_miss_the_module_check fuel args w :
  pco_help (minimist args) = false ->
  truthy (pco_test (minimist args)) = false ->
  pco_positional (minimist args) = [] ->
  main fuel args w =
    (w, [], Throw (TypeError "Cannot read properties of undefined (reading 'endsWith')")) /\
  (main fuel args w).2 <>
    Throw (ThrowString
      "You must provide at least one ES module. Use --help for usage information.").
Proof.
  intros Hh Ht Hp.
  assert (Hm : main fuel args w =
               (w, [], Throw (TypeError
                  "Cannot read properties of undefined (reading 'endsWith')"))).
  { rewrite main_single by assumption.
    unfold single_mode, single_esModules, bind. rewrite Hp. reflexivity. }
  split; [exact Hm|]. rewrite Hm. discriminate.
Qed.

(** C6. The module list of a single run is the positional tokens less the
    first two when the first one ends in [node] or [node.exe], and less the
    first one otherwise; the positional lists
    [/usr/bin/node /path/cli.js mod.js] and [check-side-effects mod.js] both
    give the module list [mod.js]. *)
Theorem invocation_style_normalization opts w first rest :
  pco_positional opts = first :: rest ->
  single_esModules opts w =
    (w, [], Return (if isNodeBinary first then drop 2 (pco_positional opts)
                    else drop 1 (pco_positional opts))) /\
  (isNodeBinary first = true <->
   exists pre, first = pre +:+ "node" \/ first = pre +:+ "node.exe") /\
  (pco_positional opts = ["/usr/bin/node"; "/path/cli.js"; "mod.js"] ->
   single_esModules opts w = (w, [], Return ["mod.js"])) /\
  (pco_positional opts = ["check-side-effects"; "mod.js"] ->
   single_esModules opts w = (w, [], Return ["mod.js"])).
Proof.
  intros Hp. conjs.
  - unfold single_esModules. rewrite Hp. reflexivity.
  - apply isNodeBinary_spec.
  - intros Hv. unfold single_esModules. rewrite Hv. reflexivity.
  - intros Hv. unfold single_esModules. rewrite Hv. reflexivity.
Qed.

(** The checker invocation of a single run. *)
Lemma main_single_checks fuel args w esms :
  pco_help (minimist args) = false ->
  truthy (pco_test (minimist args)) = false ->
  single_esModules (minimist args) w = (w, [], Return esms) ->
  esms <> [] ->
  checks (main fuel args w).1.2 =
    [singleCheckSideEffectsOptions (minimist args) esms].
Proof.
  intros Hh Ht Hm Hne. rewrite main_single by assumption.
  unfold single_mode, bind. rewrite Hm.
  destruct esms as [|esm esms]; [contradiction|]. cbn [length Nat.eqb].
  unfold do_checkSideEffects.
  destruct (checkSideEffects w _) as [[w' r]|msg]; reflexivity.
Qed.

Lemma checks_prefix t1 t2 : t1 `prefix_of` t2 -> checks t1 `prefix_of` checks t2.
Proof. intros [k ->]. unfold checks. rewrite omap_app. apply prefix_app_r. reflexivity. Qed.

Lemma map_prefix {A B} (f : A -> B) (l1 l2 : list A) :
  l1 `prefix_of` l2 -> map f l1 `prefix_of` map f l2.
Proof. intros [k ->]. rewrite map_app. apply prefix_app_r. reflexivity. Qed.

Lemma checks_flat_caseProgress opts dir ts :
  checks (flat_map (caseProgress opts dir) ts) = map (caseOptions opts dir) ts.
Proof.
  induction ts as [|test rest IH]; [reflexivity|].
  cbn [flat_map map]. unfold checks in *. rewrite omap_app, IH. reflexivity.
Qed.

Lemma esModules_caseOptions opts dir ts :
  map cse_esModules (map (caseOptions opts dir) ts) =
  map (fun test => map (resolve dir) (unresolvedEsModules test)) ts.
Proof.
  rewrite map_map. apply map_ext. intros test.
  unfold caseOptions, suiteCheckSideEffectsOptions.
  destruct (options test); reflexivity.
Qed.

Lemma reportEvents_calls opts args failed :
  checks (reportEvents opts args failed) = [] /\
  probes (reportEvents opts args failed) = [].
Proof.
  unfold reportEvents. destruct failed; [split; reflexivity|].
  destruct (pco_update opts); split; reflexivity.
Qed.

(** Without update mode the loop probes the snapshot paths of the cases and
    nothing else. *)
Lemma loop_probes_without_update fuel opts dir w ts w' ms :
  suite_evaluates fuel opts dir w ts w' ms ->
  pco_update opts = false ->
  forall failed, exists t,
    loop fuel opts dir failed ts w = (w', t, Return (failed ++ ms)) /\
    probes t = map (expectedOutputPath dir) ts.
Proof.
  intros Hev Hupd.
  assert (Hload : forall w0 p, probes (loadEvents w0 p) = [p]).
  { intros w0 p. unfold loadEvents. destruct (existsSync w0 p); reflexivity. }
  induction Hev as [w | w test rest w1 result w' ms Hc Hl _ IH
                      | w test rest w1 result expected w2 w' ms Hc Hl Hne Hu _ IH];
    intros failed.
  - exists []. cbn. rewrite app_nil_r. split; reflexivity.
  - destruct (IH failed) as (t & Ht & Hp).
    rewrite loop_cons, loop_body_eq. cbn zeta.
    rewrite Hc, Hl, String.eqb_refl, Ht.
    eexists. split; [reflexivity|].
    rewrite !probes_app, Hload, Hp. reflexivity.
  - rewrite Hupd in Hu. subst w2.
    destruct (IH (failed ++ [failedExpectation dir test expected result]))
      as (t & Ht & Hp).
    rewrite loop_cons, loop_body_eq. cbn zeta. rewrite Hc, Hl.
    destruct (String.eqb_spec result expected) as [?|_]; [contradiction|].
    rewrite Hupd, Ht. rewrite <- (app_assoc failed).
    eexists. split; [reflexivity|].
    rewrite !probes_app, Hload, Hp. reflexivity.
Qed.

(** C7. A test record that declares its module as the string [esm] and one
    that declares the array [[esm]] are the same case: the same one-element
    list, the same checker options and the same iteration. And in a suite
    run of [main], with [dir] the [dirname] of the descriptor path: the
    module lists the checker is invoked with are, case by case in order, the
    declared module paths resolved against [dir] (all of them when the cases
    evaluate, the first ones when a collaborator cuts the run short); the
    paths probed are the descriptor path and then, among them and in order,
    the expected-output path of every case resolved against [dir] (and
    nothing else without update mode). Neither [options.cwd] nor the
    working directory of the process is what these paths are resolved
    against. *)
Theorem modules_normalized_and_resolved_from_descriptor_dir
    fuel args w descriptor text json :
  pco_help (minimist args) = false ->
  pco_test (minimist args) = Some descriptor ->
  descriptor <> "" ->
  let opts := minimist args in
  let testFilePath := resolve (pco_cwd opts) descriptor in
  let dir := dirname testFilePath in
  existsSync w testFilePath = true ->
  readFileSync w testFilePath = HostOk text ->
  JSON_parse text = HostOk json ->
  map cse_esModules (checks (main fuel args w).1.2)
    `prefix_of` map (fun test => map (resolve dir) (unresolvedEsModules test))
                    (tests json) /\
  (forall w' ms, suite_evaluates fuel opts dir w (tests json) w' ms ->
     map cse_esModules (checks (main fuel args w).1.2)
       = map (fun test => map (resolve dir) (unresolvedEsModules test)) (tests json) /\
     (testFilePath :: map (fun test => resolve dir (expectedOutput test)) (tests json))
       `sublist_of` probes (main fuel args w).1.2 /\
     (pco_update opts = false ->
      probes (main fuel args w).1.2
        = testFilePath
          :: map (fun test => resolve dir (expectedOutput test)) (tests json))) /\
  (forall esm o e failed w0,
     let single := {| esModules := OneModule esm; options := o; expectedOutput := e |} in
     let listed := {| esModules := ModuleArray [esm]; options := o; expectedOutput := e |} in
     unresolvedEsModules single = [esm] /\
     unresolvedEsModules listed = [esm] /\
     cse_esModules (caseOptions opts dir single) = [resolve dir esm] /\
     cse_esModules (caseOptions opts dir listed) = [resolve dir esm] /\
     loop_body fuel opts dir failed single w0 = loop_body fuel opts dir failed listed w0) /\
  (forall test failed w0,
     let '(w', t, r) := loop_body fuel opts dir failed test w0 in
     checks t = [caseOptions opts dir test] /\
     cse_esModules (caseOptions opts dir test) =
       map (resolve dir) (unresolvedEsModules test) /\
     (forall failed', r = Return failed' ->
        head (probes (drop 2 t)) = Some (resolve dir (expectedOutput test)))).
Proof.
  intros Hh Ht Hne opts testFilePath dir Hex Hrd Hjs.
  pose proof (main_suite fuel args w descriptor text json Hh Ht Hne Hex Hrd Hjs)
    as Hmain. cbn zeta in Hmain. fold opts testFilePath dir in Hmain.
  rewrite run_suite_eq in Hmain.
  pose proof (loop_summary fuel opts dir (tests json) [] w) as Hs.
  pose proof (fun w' ms Hev => loop_evaluates fuel opts dir w (tests json) w' ms Hev [])
    as Hret.
  pose proof (fun w' ms Hev Hu =>
                loop_probes_without_update fuel opts dir w (tests json) w' ms Hev Hu [])
    as Hexact.
  destruct (loop fuel opts dir [] (tests json) w) as [[wl tl] rl].
  destruct Hs as (Hpre & _ & _ & Hall).
  assert (Hchecks : checks (main fuel args w).1.2 = checks tl).
  { rewrite Hmain. destruct rl as [failed|e|]; cbn [fst snd]; try reflexivity.
    unfold checks. cbn [app omap list_omap]. rewrite omap_app.
    fold (checks (reportEvents opts args failed)).
    rewrite (proj1 (reportEvents_calls opts args failed)), app_nil_r. reflexivity. }
  assert (Hprobes : probes (main fuel args w).1.2 = testFilePath :: probes tl).
  { rewrite Hmain. destruct rl as [failed|e|]; cbn [fst snd]; try reflexivity.
    unfold probes. cbn [app omap list_omap]. rewrite omap_app.
    fold (probes (reportEvents opts args failed)).
    rewrite (proj2 (reportEvents_calls opts args failed)), app_nil_r. reflexivity. }
  conjs.
  - rewrite Hchecks, <- (esModules_caseOptions opts), <- checks_flat_caseProgress.
    apply map_prefix. rewrite <- (checks_progress tl). apply checks_prefix, Hpre.
  - intros w' ms Hev. destruct (Hret w' ms Hev) as [t' [= -> -> ->]].
    destruct (Hall _ eq_refl) as (Hprog & Hsub & _). conjs.
    + rewrite Hchecks, <- (esModules_caseOptions opts), <- checks_flat_caseProgress,
        <- (checks_progress t'), Hprog. reflexivity.
    + rewrite Hprobes. apply sublist_skip. exact Hsub.
    + intros Hu. rewrite Hprobes.
      destruct (Hexact w' ms Hev Hu) as (t2 & [= <-] & ->). reflexivity.
  - intros esm o e failed w0 single listed. conjs; try reflexivity.
    + unfold caseOptions, suiteCheckSideEffectsOptions. cbn. destruct o; reflexivity.
    + unfold caseOptions, suiteCheckSideEffectsOptions. cbn. destruct o; reflexivity.
  - intros test failed w0.
    pose proof (loop_body_summary fuel opts dir failed test w0) as Hb.
    destruct (loop_body fuel opts dir failed test w0) as [[w' t] r].
    destruct Hb as (Hp & _ & _ & Hr). conjs.
    + rewrite <- checks_progress, Hp. reflexivity.
    + unfold caseOptions, suiteCheckSideEffectsOptions.
      destruct (options test); reflexivity.
    + intros failed' Hf. apply (Hr failed' Hf).
Qed.

Lemma logs_caseProgress opts dir tests :
  logs (flat_map (caseProgress opts dir) tests) =
  map (fun test => "Testing " +:+ modulesDescription test) tests.
Proof.
  induction tests as [|test rest IH]; [reflexivity|].
  cbn [flat_map map]. unfold logs in *. rewrite omap_app, IH. reflexivity.
Qed.

Lemma checks_caseProgress opts dir tests :
  checks (flat_map (caseProgress opts dir) tests) = map (caseOptions opts dir) tests.
Proof.
  induction tests as [|test rest IH]; [reflexivity|].
  cbn [flat_map map]. unfold checks in *. rewrite omap_app, IH. reflexivity.
Qed.

(** C9. The progress lines and checker invocations of the loop are, in
    descriptor order, a progress line naming the modules of a case followed by
    the invocation of that case; whatever the comparisons give, a loop that
    reaches its end has printed exactly one such line per case, and it reaches
    its end whenever no collaborator fails. A loop cut short by a failing
    collaborator has printed the lines of the cases it reached. *)
Theorem one_progress_line_per_case fuel opts dir tests failed w :
  let '(w', t, r) := loop fuel opts dir failed tests w in
  progress t `prefix_of` flat_map (caseProgress opts dir) tests /\
  (forall failed', r = Return failed' ->
     progress t = flat_map (caseProgress opts dir) tests /\
     logs t = map (fun test => "Testing " +:+ modulesDescription test) tests /\
     length (logs t) = length tests) /\
  (forall w'' ms, suite_evaluates fuel opts dir w tests w'' ms ->
     r = Return (failed ++ ms)).
Proof.
  pose proof (loop_summary fuel opts dir tests failed w) as Hs.
  pose proof (fun w'' ms He => loop_evaluates fuel opts dir w tests w'' ms He failed) as Hev.
  destruct (loop fuel opts dir failed tests w) as [[w' t] r].
  destruct Hs as (Hp & _ & _ & Hr). conjs.
  - exact Hp.
  - intros failed' Hf. destruct (Hr failed' Hf) as (Hq & _).
    assert (Hl : logs t = map (fun test => "Testing " +:+ modulesDescription test) tests).
    { rewrite <- logs_progress, Hq. apply logs_caseProgress. }
    conjs; [exact Hq | exact Hl |]. rewrite Hl. apply length_map.
  - intros w'' ms He. destruct (Hev w'' ms He) as [t' [= _ _ ->]]. reflexivity.
Qed.

Lemma writes_app t1 t2 : writes (t1 ++ t2) = writes t1 ++ writes t2.
Proof. apply omap_app. Qed.

Lemma mkdirs_app t1 t2 : mkdirs (t1 ++ t2) = mkdirs t1 ++ mkdirs t2.
Proof. apply omap_app. Qed.

(** The file-system mutations of one iteration. *)
Lemma loop_body_writes fuel opts dir failed test w :
  let '(w', t, r) := loop_body fuel opts dir failed test w in
  (writes t = [] \/
   exists w1 result expected,
     pco_update opts = true /\
     checkSideEffects w (caseOptions opts dir test) = HostOk (w1, result) /\
     loadExpected w1 (expectedOutputPath dir test) = HostOk expected /\
     result <> expected /\
     writes t = [(expectedOutputPath dir test, result)]) /\
  (forall w1 result expected,
     checkSideEffects w (caseOptions opts dir test) = HostOk (w1, result) ->
     loadExpected w1 (expectedOutputPath dir test) = HostOk expected ->
     pco_update opts = false \/ result = expected ->
     w' = w1 /\ writes t = [] /\ mkdirs t = []) /\
  (pco_update opts = false -> writes t = [] /\ mkdirs t = []).
Proof.
  rewrite loop_body_eq. cbn zeta.
  destruct (checkSideEffects w (caseOptions opts dir test)) as [[w1 result]|msg].
  2: { conjs; [left; reflexivity | intros ? ? ? Hx; discriminate Hx
              | intros _; split; reflexivity]. }
  destruct (loadEvents_calls w1 (expectedOutputPath dir test))
    as (_ & _ & Hw & Hm & _).
  assert (Hpw : writes ([EvLog ("Testing " +:+ modulesDescription test);
                         EvCheck (caseOptions opts dir test)]
                        ++ loadEvents w1 (expectedOutputPath dir test)) = []).
  { rewrite writes_app, Hw. reflexivity. }
  assert (Hpm : mkdirs ([EvLog ("Testing " +:+ modulesDescription test);
                         EvCheck (caseOptions opts dir test)]
                        ++ loadEvents w1 (expectedOutputPath dir test)) = []).
  { rewrite mkdirs_app, Hm. reflexivity. }
  destruct (loadExpected w1 (expectedOutputPath dir test)) as [expected|msg] eqn:Hload.
  2: { conjs; [left; exact Hpw | intros ? ? ? [= <- <-] Hx; congruence | auto]. }
  destruct (String.eqb_spec result expected) as [Heq|Hne].
  { conjs; [left; exact Hpw | intros ? ? ? [= <- <-] _ _; auto | auto]. }
  destruct (pco_update opts) eqn:Hupd.
  2: { conjs; [left; exact Hpw | intros ? ? ? [= <- <-] _ _; auto | auto]. }
  pose proof (updateSnapshot_calls fuel (expectedOutputPath dir test) result w1) as Hu.
  cbn zeta in Hu.
  destruct (updateSnapshot fuel (expectedOutputPath dir test) result w1)
    as [[w2 t2] r2]; cbn [fst snd] in Hu. destruct Hu as (_ & _ & Hw2).
  assert (Hgoal :
    (writes (([EvLog ("Testing " +:+ modulesDescription test);
               EvCheck (caseOptions opts dir test)]
              ++ loadEvents w1 (expectedOutputPath dir test)) ++ t2) = [] \/
     exists w1' result' expected',
       true = true /\
       HostOk (w1, result) = HostOk (w1', result') /\
       loadExpected w1' (expectedOutputPath dir test) = HostOk expected' /\
       result' <> expected' /\
       writes (([EvLog ("Testing " +:+ modulesDescription test);
                 EvCheck (caseOptions opts dir test)]
                ++ loadEvents w1 (expectedOutputPath dir test)) ++ t2)
       = [(expectedOutputPath dir test, result')])).
  { rewrite writes_app, Hpw. destruct Hw2 as [->| ->]; [left; reflexivity|].
    right. exists w1, result, expected. auto. }
  destruct r2 as [[]|e|]; (conjs; [exact Hgoal | | discriminate]);
    intros ? ? ? [= <- <-] Hx [?|?]; congruence.
Qed.

(** The snapshot writes of the loop. *)
Lemma loop_writes fuel opts dir tests : forall failed w,
  let '(w', t, r) := loop fuel opts dir failed tests w in
  map fst (writes t) `sublist_of` map (expectedOutputPath dir) tests /\
  (pco_update opts = false -> writes t = [] /\ mkdirs t = []).
Proof.
  induction tests as [|test rest IH]; intros failed w.
  - cbn. split; [constructor | auto].
  - rewrite loop_cons.
    pose proof (loop_body_writes fuel opts dir failed test w) as Hb.
    destruct (loop_body fuel opts dir failed test w) as [[w1 t1] r1].
    cbn zeta in Hb. destruct Hb as (Hw & _ & Hn).
    assert (H1 : map fst (writes t1) `sublist_of` [expectedOutputPath dir test]).
    { destruct Hw as [->|(? & ? & ? & _ & _ & _ & _ & ->)]; cbn.
      - apply sublist_nil_l.
      - reflexivity. }
    destruct r1 as [failed1|e|].
    + specialize (IH failed1 w1).
      destruct (loop fuel opts dir failed1 rest w1) as [[w2 t2] r].
      destruct IH as (IHs & IHn). split.
      * rewrite writes_app, map_app. cbn [map].
        change (expectedOutputPath dir test :: map (expectedOutputPath dir) rest)
          with ([expectedOutputPath dir test] ++ map (expectedOutputPath dir) rest).
        apply sublist_app; assumption.
      * intros Hu. destruct (Hn Hu) as [Ha Hb]. destruct (IHn Hu) as [Hc Hd].
        rewrite writes_app, mkdirs_app, Ha, Hb, Hc, Hd. auto.
    + split; [|exact Hn]. cbn [map].
      change (expectedOutputPath dir test :: map (expectedOutputPath dir) rest)
        with ([expectedOutputPath dir test] ++ map (expectedOutputPath dir) rest).
      rewrite <- (app_nil_r (map fst (writes t1))).
      apply sublist_app; [assumption | apply sublist_nil_l].
    + split; [|exact Hn]. cbn [map].
      change (expectedOutputPath dir test :: map (expectedOutputPath dir) rest)
        with ([expectedOutputPath dir test] ++ map (expectedOutputPath dir) rest).
      rewrite <- (app_nil_r (map fst (writes t1))).
      apply sublist_app; [assumption | apply sublist_nil_l].
Qed.

(** C8. One iteration calls [writeFileSync] at most once, and only in update
    mode, on the snapshot path of its case, with the actual output, after a
    comparison that found the actual output different from the expected text.
    When update mode is off or the texts are equal, the iteration makes no
    [writeFileSync] or [mkdirSync] call and leaves the world as the checker
    left it. Over a whole loop the paths written are, in order, a
    subsequence of the snapshot paths of the cases (one write at most for each
    case), and without update mode nothing is written or created. *)
Theorem snapshot_written_only_on_update_mismatch fuel opts dir tests failed test w :
  (let '(w', t, r) := loop_body fuel opts dir failed test w in
   (writes t = [] \/
    exists w1 result expected,
      pco_update opts = true /\
      checkSideEffects w (caseOptions opts dir test) = HostOk (w1, result) /\
      loadExpected w1 (expectedOutputPath dir test) = HostOk expected /\
      result <> expected /\
      writes t = [(expectedOutputPath dir test, result)]) /\
   (forall w1 result expected,
      checkSideEffects w (caseOptions opts dir test) = HostOk (w1, result) ->
      loadExpected w1 (expectedOutputPath dir test) = HostOk expected ->
      pco_update opts = false \/ result = expected ->
      w' = w1 /\ writes t = [] /\ mkdirs t = [])) /\
  (let '(w', t, r) := loop fuel opts dir failed tests w in
   map fst (writes t) `sublist_of` map (expectedOutputPath dir) tests /\
   length (writes t) <= length tests /\
   (pco_update opts = false -> writes t = [] /\ mkdirs t = [])).
Proof.
  split.
  - pose proof (loop_body_writes fuel opts dir failed test w) as Hb.
    destruct (loop_body fuel opts dir failed test w) as [[w' t] r].
    destruct Hb as (Hw & Hk & _). split; assumption.
  - pose proof (loop_writes fuel opts dir tests failed w) as Hl.
    destruct (loop fuel opts dir failed tests w) as [[w' t] r].
    destruct Hl as (Hs & Hn). conjs; [exact Hs | | exact Hn].
    apply sublist_length in Hs. rewrite !length_map in Hs. exact Hs.
Qed.

(** C4. The loop is a batch: it throws nothing of its own, so only a failing
    collaborator ends it early; and when no collaborator fails, whatever the
    comparisons give, it returns after the checker has been invoked once for
    every case, in descriptor order, and the snapshot of every case has been
    probed, the mismatches being added to the failures it was given. *)
Theorem evaluation_is_batch fuel opts dir tests failed w :
  (forall e, (loop fuel opts dir failed tests w).2 = Throw e ->
     exists msg, e = HostError msg) /\
  (forall w' ms, suite_evaluates fuel opts dir w tests w' ms ->
     exists t,
       loop fuel opts dir failed tests w = (w', t, Return (failed ++ ms)) /\
       checks t = map (caseOptions opts dir) tests /\
       map (expectedOutputPath dir) tests `sublist_of` probes t /\
       length ms <= length tests).
Proof.
  pose proof (loop_summary fuel opts dir tests failed w) as Hs.
  split.
  - destruct (loop fuel opts dir failed tests w) as [[w' t] r].
    destruct Hs as (_ & He & _). exact He.
  - intros w' ms Hev.
    destruct (loop_evaluates fuel opts dir w tests w' ms Hev failed) as [t Ht].
    rewrite Ht in Hs. destruct Hs as (_ & _ & _ & Hr).
    destruct (Hr _ eq_refl) as (Hp & Hprobes & new & Hnew & Hlen).
    apply app_inv_head in Hnew. subst new.
    exists t. conjs; try assumption.
    rewrite <- checks_progress, Hp. apply checks_caseProgress.
Qed.

(** C1. In update mode a suite run never throws of its own: only a failing
    collaborator can make it throw. When no collaborator fails, it returns
    normally whatever the comparisons gave; with one mismatch or more its last
    lines are the changed snapshots and the count of expectations updated,
    and with none it is the success message. *)
Theorem update_mode_never_raises fuel opts args dir json w :
  pco_update opts = true ->
  (forall e, (run_suite fuel opts args dir json w).2 = Throw e ->
     exists msg, e = HostError msg) /\
  (forall w' ms, suite_evaluates fuel opts dir w (tests json) w' ms ->
     exists t,
       loop fuel opts dir [] (tests json) w = (w', t, Return ms) /\
       run_suite fuel opts args dir json w =
         (w',
          t ++ match ms with
               | [] => [EvLog ""; EvLog "All tests passed."]
               | _ :: _ =>
                   [EvLog "";
                    EvLog ("The following snapshots have changed:" +:+ nl +:+ nl);
                    EvLog (join nl (map snapshotChanged ms));
                    EvLog (show_nat (length ms) +:+ " test expectations updated." +:+ nl)]
               end,
          Return tt)).
Proof.
  intros Hu. split.
  - intros e. rewrite run_suite_eq.
    pose proof (loop_summary fuel opts dir (tests json) [] w) as Hs.
    destruct (loop fuel opts dir [] (tests json) w) as [[w1 t1] [ms|e1|]];
      destruct Hs as (_ & He & _); cbn [snd].
    + rewrite Hu. destruct ms; discriminate.
    + intros [= <-]. apply He. reflexivity.
    + discriminate.
  - intros w' ms Hev.
    destruct (loop_evaluates fuel opts dir w (tests json) w' ms Hev []) as [t Ht].
    cbn [app] in Ht. exists t. split; [exact Ht|].
    rewrite run_suite_eq, Ht. unfold reportEvents. rewrite Hu.
    destruct ms; reflexivity.
Qed.

(** C2. Without update mode, when no collaborator fails and one comparison or
    more failed, the suite run prints, after the loop: an empty line, the
    header, then in one line the diffs, each failure as
    [Snapshot for <description> changed:], an empty line, its diff and a line
    feed, the entries separated by a line feed; only then the count of failed
    tests, the hint, an empty line and the command made of the argument vector
    joined by spaces followed by [--update]; and then it throws (the empty
    string). *)
Theorem failing_suite_reports_then_raises fuel opts args dir json w w' ms :
  pco_update opts = false ->
  suite_evaluates fuel opts dir w (tests json) w' ms ->
  ms <> [] ->
  exists t,
    loop fuel opts dir [] (tests json) w = (w', t, Return ms) /\
    run_suite fuel opts args dir json w =
      (w',
       t ++ [EvLog "";
             EvLog ("The following snapshots have changed:" +:+ nl +:+ nl);
             EvLog (String.concat nl
                      (map (fun s => "Snapshot for " +:+ testDescription s
                                     +:+ " changed:" +:+ nl +:+ nl
                                     +:+ diff s +:+ nl) ms));
             EvLog (show_nat (length ms) +:+ " tests failed, see above for diffs.");
             EvLog "To update the expectations, run this command again with the --update flag:";
             EvLog "";
             EvLog ("  " +:+ String.concat " " args +:+ " --update")],
       Throw (ThrowString "")).
Proof.
  intros Hu Hev Hne.
  destruct (loop_evaluates fuel opts dir w (tests json) w' ms Hev []) as [t Ht].
  cbn [app] in Ht. exists t. split; [exact Ht|].
  rewrite run_suite_eq, Ht. unfold reportEvents. rewrite Hu.
  destruct ms; [contradiction | reflexivity].
Qed.

End DriverFacts.

(** * Further properties of the driver *)

Section DriverExtras.

Context {W : Type} `{Host W}.

Implicit Types (w : W) (t : list event) (path : string) (fuel : nat).

Ltac conjs := repeat match goal with |- _ /\ _ => split end.

(** ** The errors of the descriptor *)

(** X1. The descriptor is fatal before any case runs. A descriptor that does
    not exist makes [main] throw [Could not find the test file: <path>.]
    after the probe alone, with nothing printed. One that cannot be read, or
    does not parse, makes [main] throw the collaborator's error after the
    loading line. In no case is the checker invoked. *)
Theorem descriptor_errors_are_fatal fuel args w descriptor :
  pco_help (minimist args) = false ->
  pco_test (minimist args) = Some descriptor ->
  descriptor <> "" ->
  let testFilePath := resolve (pco_cwd (minimist args)) descriptor in
  let loading :=
    [EvExists testFilePath;
     EvLog ("Loading tests from " +:+ testFilePath +:+ nl);
     EvRead testFilePath] in
  (existsSync w testFilePath = false ->
   main fuel args w =
     (w, [EvExists testFilePath],
      Throw (ThrowString ("Could not find the test file: " +:+ testFilePath +:+ ".")))) /\
  (existsSync w testFilePath = true ->
   forall msg, readFileSync w testFilePath = HostFail msg ->
   main fuel args w = (w, loading, Throw (HostError msg))) /\
  (existsSync w testFilePath = true ->
   forall text msg,
     readFileSync w testFilePath = HostOk text ->
     JSON_parse text = HostFail msg ->
     main fuel args w = (w, loading, Throw (HostError msg))).
Proof.
  intros Hh Ht Hne testFilePath loading.
  assert (Hmain : main fuel args w =
                  bind (suite_mode fuel (minimist args) args descriptor)
                       (fun _ => ret None) w).
  { unfold main. rewrite Hh, Ht. cbn [truthy from_option]. unfold id.
    destruct (String.eqb_spec descriptor "") as [?|_]; [contradiction|].
    reflexivity. }
  assert (Hsuite : forall r,
            existsSync w testFilePath = r ->
            suite_mode fuel (minimist args) args descriptor w =
            if negb r then
              (w, [EvExists testFilePath],
               Throw (ThrowString
                 ("Could not find the test file: " +:+ testFilePath +:+ ".")))
            else
              match readFileSync w testFilePath with
              | HostFail msg => (w, loading, Throw (HostError msg))
              | HostOk text =>
                  match JSON_parse text with
                  | HostFail msg => (w, loading, Throw (HostError msg))
                  | HostOk json =>
                      let '(w', t, r) :=
                        run_suite fuel (minimist args) args (dirname testFilePath) json w in
                      (w', loading ++ t, r)
                  end
              end).
  { intros r Hex. unfold suite_mode. fold testFilePath.
    unfold bind at 1. unfold do_existsSync at 1. rewrite Hex.
    destruct r; cbn [negb]; [|reflexivity].
    unfold bind at 1. unfold console_log at 1.
    unfold bind at 1. unfold do_readFileSync at 1.
    destruct (readFileSync w testFilePath) as [text|msg]; [|reflexivity].
    unfold bind at 1. unfold do_JSON_parse at 1.
    destruct (JSON_parse text) as [json|msg]; [|reflexivity].
    destruct (run_suite fuel (minimist args) args (dirname testFilePath) json w)
      as [[w' t] r]. reflexivity. }
  rewrite Hmain. unfold bind. conjs.
  - intros Hex. rewrite (Hsuite false Hex). reflexivity.
  - intros Hex msg Hrd. rewrite (Hsuite true Hex), Hrd. reflexivity.
  - intros Hex text msg Hrd Hjs. rewrite (Hsuite true Hex), Hrd, Hjs. reflexivity.
Qed.

(** ** Single runs *)

(** X11. A single run without any positional token ends in the TypeError of
    [undefined.endsWith], raised by [isNodeBinary(options._[0])], and not in
    the message that a module must be provided. *)
Theorem single_run_without_positional_is_type_error fuel args w :
  pco_help (minimist args) = false ->
  truthy (pco_test (minimist args)) = false ->
  pco_positional (minimist args) = [] ->
  main fuel args w =
  (w, [], Throw (TypeError "Cannot read properties of undefined (reading 'endsWith')")).
Proof.
  intros Hh Ht Hp. rewrite main_single by assumption.
  unfold single_mode, single_esModules, bind. rewrite Hp. reflexivity.
Qed.

(** X12. The interpreter test looks at the end of the first token only: a
    program whose own name ends in [node] or [node.exe], invoked with one
    module, loses that module to the second strip, and the run throws that a
    module must be provided. *)
Theorem module_after_node_named_binary_is_dropped fuel args w first esm :
  pco_help (minimist args) = false ->
  truthy (pco_test (minimist args)) = false ->
  pco_positional (minimist args) = [first; esm] ->
  (exists pre, first = pre +:+ "node" \/ first = pre +:+ "node.exe") ->
  main fuel args w =
  (w, [], Throw (ThrowString
     "You must provide at least one ES module. Use --help for usage information.")).
Proof.
  intros Hh Ht Hp Hnode%isNodeBinary_spec. rewrite main_single by assumption.
  unfold single_mode, single_esModules, bind. rewrite Hp, Hnode. reflexivity.
Qed.

(** X13. A single run with a module left after the strip calls the checker
    once, with those modules, [options.cwd], [options.output] and the six
    toggles of the command line, and returns what the checker returns; a
    failure of the checker is thrown on. Nothing is printed and the file
    system is not called. *)
Theorem single_run_forwards_to_checker fuel args w first rest :
  pco_help (minimist args) = false ->
  truthy (pco_test (minimist args)) = false ->
  pco_positional (minimist args) = first :: rest ->
  let esms := if isNodeBinary first then drop 1 rest else rest in
  esms <> [] ->
  let o :=
    {| cse_esModules := esms;
       cse_cwd := Some (pco_cwd (minimist args));
       cse_output := pco_output (minimist args);
       cse_propertyReadSideEffects := Some (pco_propertyReadSideEffects (minimist args));
       cse_resolveExternals := Some (pco_resolveExternals (minimist args));
       cse_printDependencies := Some (pco_printDependencies (minimist args));
       cse_useBuildOptimizer := Some (pco_useBuildOptimizer (minimist args));
       cse_useMinifier := Some (pco_useMinifier (minimist args));
       cse_warnings := Some (pco_warnings (minimist args)) |} in
  main fuel args w =
  match checkSideEffects w o with
  | HostOk (w', r) => (w', [EvCheck o], Return (Some r))
  | HostFail msg => (w, [EvCheck o], Throw (HostError msg))
  end.
Proof.
  intros Hh Ht Hp esms Hne o. rewrite main_single by assumption.
  unfold single_mode, single_esModules, bind, ret. rewrite Hp.
  replace (if isNodeBinary first then drop 2 (first :: rest) else drop 1 (first :: rest))
    with esms by (unfold esms; destruct (isNodeBinary first); reflexivity).
  unfold singleCheckSideEffectsOptions. fold o. clearbody o. clearbody esms.
  destruct esms as [|e es]; [contradiction|]. cbn [length Nat.eqb].
  unfold do_checkSideEffects.
  destruct (checkSideEffects w o) as [[w' r]|msg]; reflexivity.
Qed.

(** ** The failure accumulator *)

Lemma loop_body_accumulates fuel opts dir failed test w :
  loop_body fuel opts dir failed test w =
  let '(w', t, r) := loop_body fuel opts dir [] test w in
  (w', t,
   match r with
   | Return new => Return (failed ++ new)
   | Throw e => Throw e
   | OutOfFuel => OutOfFuel
   end).
Proof.
  rewrite !loop_body_eq. cbn zeta.
  destruct (checkSideEffects w (caseOptions opts dir test)) as [[w1 result]|msg];
    [|reflexivity].
  destruct (loadExpected w1 (expectedOutputPath dir test)) as [expected|msg];
    [|reflexivity].
  destruct (String.eqb result expected).
  { rewrite app_nil_r. reflexivity. }
  destruct (pco_update opts); [|reflexivity].
  destruct (updateSnapshot fuel (expectedOutputPath dir test) result w1)
    as [[w2 t2] [[]|e|]]; reflexivity.
Qed.

(** X5. The failures a loop is given are never dropped, reordered or changed:
    the loop behaves as it does from an empty accumulator, the same world,
    calls and outcome, and returns the given failures followed by the new
    ones. *)
Theorem accumulator_only_grows fuel opts dir tests : forall failed w,
  loop fuel opts dir failed tests w =
  let '(w', t, r) := loop fuel opts dir [] tests w in
  (w', t,
   match r with
   | Return new => Return (failed ++ new)
   | Throw e => Throw e
   | OutOfFuel => OutOfFuel
   end).
Proof.
  induction tests as [|test rest IH]; intros failed w.
  - cbn. rewrite app_nil_r. reflexivity.
  - rewrite !loop_cons, (loop_body_accumulates fuel opts dir failed).
    destruct (loop_body fuel opts dir [] test w) as [[w1 t1] [new1|e|]];
      [|reflexivity..].
    rewrite (IH (failed ++ new1)), (IH new1).
    destruct (loop fuel opts dir [] rest w1) as [[w2 t2] [new2|e|]];
      [|reflexivity..].
    rewrite app_assoc. reflexivity.
Qed.

Lemma loop_order fuel opts dir tests : forall failed w,
  let '(w', t, r) := loop fuel opts dir failed tests w in
  forall failed', r = Return failed' ->
  exists new,
    failed' = failed ++ new /\
    map testDescription new `sublist_of` map modulesDescription tests.
Proof.
  induction tests as [|test rest IH]; intros failed w.
  - cbn. intros f [= <-]. exists []. rewrite app_nil_r. split; [reflexivity|constructor].
  - rewrite loop_cons.
    pose proof (loop_body_summary fuel opts dir failed test w) as Hb.
    destruct (loop_body fuel opts dir failed test w) as [[w1 t1] [failed1|e|]];
      destruct Hb as (_ & _ & _ & Hr); [|discriminate..].
    specialize (IH failed1 w1).
    destruct (loop fuel opts dir failed1 rest w1) as [[w2 t2] r].
    intros failed' Hf. destruct (IH failed' Hf) as (new & -> & Hsub).
    destruct (Hr failed1 eq_refl) as (_ & [->|(expected & result & _ & ->)]).
    + exists new. split; [reflexivity|]. cbn [map]. apply sublist_cons, Hsub.
    + exists (failedExpectation dir test expected result :: new).
      rewrite <- app_assoc. split; [reflexivity|]. cbn [map].
      apply sublist_skip, Hsub.
Qed.

(** X6. The failures a loop collects are in descriptor order: their
    descriptions are, in order, descriptions of cases of the suite, each case
    giving one failure at most. *)
Theorem failures_keep_descriptor_order fuel opts dir tests w :
  let '(w', t, r) := loop fuel opts dir [] tests w in
  forall failed, r = Return failed ->
  map testDescription failed `sublist_of` map modulesDescription tests /\
  length failed <= length tests.
Proof.
  pose proof (loop_order fuel opts dir tests [] w) as Ho.
  destruct (loop fuel opts dir [] tests w) as [[w' t] r].
  intros failed Hf. destruct (Ho failed Hf) as (new & -> & Hsub).
  cbn [app]. split; [exact Hsub|].
  apply sublist_length in Hsub. rewrite !length_map in Hsub. exact Hsub.
Qed.

(** ** What the loop reads of the options *)

Lemma caseOptions_cwd opts1 opts2 dir test :
  pco_cwd opts1 = pco_cwd opts2 ->
  caseOptions opts1 dir test = caseOptions opts2 dir test.
Proof.
  intros Hc. unfold caseOptions, suiteCheckSideEffectsOptions. rewrite Hc.
  reflexivity.
Qed.

Lemma loop_reads_cwd_and_update fuel opts1 opts2 dir tests :
  pco_cwd opts1 = pco_cwd opts2 ->
  pco_update opts1 = pco_update opts2 ->
  forall failed w,
    loop fuel opts1 dir failed tests w = loop fuel opts2 dir failed tests w.
Proof.
  intros Hc Hu. induction tests as [|test rest IH]; intros failed w; [reflexivity|].
  rewrite !loop_cons, !loop_body_eq. cbn zeta.
  rewrite (caseOptions_cwd opts1 opts2 dir test Hc), Hu.
  destruct (checkSideEffects w (caseOptions opts2 dir test)) as [[w1 result]|msg];
    [|reflexivity].
  destruct (loadExpected w1 (expectedOutputPath dir test)) as [expected|msg];
    [|reflexivity].
  destruct (String.eqb result expected); [rewrite IH; reflexivity|].
  destruct (pco_update opts2); [|rewrite IH; reflexivity].
  destruct (updateSnapshot fuel (expectedOutputPath dir test) result w1)
    as [[w2 t2] [[]|e|]]; [rewrite IH|..]; reflexivity.
Qed.

(** X3. A suite run reads two fields of the parsed options only,
    [options.cwd] and [options.update]: the six toggles, [options.output]
    and the positional modules of the command line change nothing of it, no
    call, no output and no outcome. *)
Theorem suite_ignores_cli_toggles fuel opts1 opts2 args dir json w :
  pco_cwd opts1 = pco_cwd opts2 ->
  pco_update opts1 = pco_update opts2 ->
  run_suite fuel opts1 args dir json w = run_suite fuel opts2 args dir json w.
Proof.
  intros Hc Hu. rewrite !run_suite_eq.
  rewrite (loop_reads_cwd_and_update fuel opts1 opts2 dir (tests json) Hc Hu).
  unfold reportEvents. rewrite Hu. reflexivity.
Qed.

(** ** How a suite run ends *)

Lemma loop_all_pass fuel opts dir w tests w' ms :
  suite_evaluates fuel opts dir w tests w' ms ->
  ms = [] ->
  forall failed, exists t,
    loop fuel opts dir failed tests w = (w', t, Return failed) /\
    writes t = [] /\ mkdirs t = [] /\
    logs t = map (fun test => "Testing " +:+ modulesDescription test) tests.
Proof.
  induction 1 as [w | w test rest w1 result w' ms Hc Hl _ IH
                    | w test rest w1 result expected w2 w' ms Hc Hl Hne Hu _ IH];
    intros Hms failed; [| |discriminate].
  - exists []. repeat split.
  - destruct (IH Hms failed) as (t & Ht & Hw & Hm & Hlog).
    rewrite loop_cons, loop_body_eq. cbn zeta.
    rewrite Hc, Hl, String.eqb_refl, Ht.
    destruct (loadEvents_calls w1 (expectedOutputPath dir test))
      as (Hll & _ & Hlw & Hlm & _).
    eexists. split; [reflexivity|].
    rewrite !writes_app, !mkdirs_app, Hw, Hm, Hlw, Hlm.
    unfold logs in *. rewrite !omap_app, Hll, Hlog. repeat split.
Qed.

(** X2. A suite in which every case passes, the empty suite included, ends
    the same way in both modes: after the progress lines the run prints an
    empty line and [All tests passed.], and returns; it has made no
    [writeFileSync] and no [mkdirSync] call. *)
Theorem passing_suite_reports_success fuel opts args dir json w w' :
  suite_evaluates fuel opts dir w (tests json) w' [] ->
  exists t,
    run_suite fuel opts args dir json w =
      (w', t ++ [EvLog ""; EvLog "All tests passed."], Return tt) /\
    logs t = map (fun test => "Testing " +:+ modulesDescription test) (tests json) /\
    writes t = [] /\ mkdirs t = [].
Proof.
  intros Hev.
  destruct (loop_all_pass fuel opts dir w (tests json) w' [] Hev eq_refl [])
    as (t & Ht & Hw & Hm & Hl).
  exists t. rewrite run_suite_eq, Ht. repeat split; assumption.
Qed.

(** Lines 101-161 throw a string in one situation only: the loop has reached
    its end with one failure or more and update mode is off; and the string
    thrown is then the empty one. *)
Lemma run_suite_throws_string fuel opts args dir json w msg :
  (run_suite fuel opts args dir json w).2 = Throw (ThrowString msg) <->
  msg = "" /\ pco_update opts = false /\
  exists w1 t1 f fs,
    loop fuel opts dir [] (tests json) w = (w1, t1, Return (f :: fs)).
Proof.
  rewrite run_suite_eq.
  pose proof (loop_summary fuel opts dir (tests json) [] w) as Hs.
  destruct (loop fuel opts dir [] (tests json) w) as [[w1 t1] [failed|e|]];
    destruct Hs as (_ & He & _); cbn [snd].
  - destruct failed as [|f fs].
    + split; [discriminate|]. intros (_ & _ & ? & ? & ? & ? & [=]).
    + destruct (pco_update opts).
      * split; [discriminate|]. intros (_ & [=] & _).
      * split.
        -- intros [= <-]. repeat split. eauto.
        -- intros (-> & _). reflexivity.
  - split.
    + intros [= ->]. destruct (He _ eq_refl) as [? [=]].
    + intros (_ & _ & ? & ? & ? & ? & [=]).
  - split; [discriminate|]. intros (_ & _ & ? & ? & ? & ? & [=]).
Qed.

(** [main] in suite mode, by what the collaborators answer for the
    descriptor. *)
Lemma main_in_suite_mode fuel args w descriptor :
  pco_help (minimist args) = false ->
  pco_test (minimist args) = Some descriptor ->
  descriptor <> "" ->
  let testFilePath := resolve (pco_cwd (minimist args)) descriptor in
  let loading :=
    [EvExists testFilePath;
     EvLog ("Loading tests from " +:+ testFilePath +:+ nl);
     EvRead testFilePath] in
  main fuel args w =
  if existsSync w testFilePath then
    match readFileSync w testFilePath with
    | HostFail msg => (w, loading, Throw (HostError msg))
    | HostOk text =>
        match JSON_parse text with
        | HostFail msg => (w, loading, Throw (HostError msg))
        | HostOk json =>
            let '(w', t, r) :=
              run_suite fuel (minimist args) args (dirname testFilePath) json w in
            (w', loading ++ t,
             match r with
             | Return _ => Return None
             | Throw e => Throw e
             | OutOfFuel => OutOfFuel
             end)
        end
    end
  else
    (w, [EvExists testFilePath],
     Throw (ThrowString ("Could not find the test file: " +:+ testFilePath +:+ "."))).
Proof.
  intros Hh Ht Hne testFilePath loading.
  unfold main. rewrite Hh, Ht. cbn [truthy from_option]. unfold id.
  destruct (String.eqb_spec descriptor "") as [?|_]; [contradiction|]. cbn [negb].
  unfold suite_mode. fold testFilePath.
  unfold bind at 1. unfold bind at 1. unfold do_existsSync at 1.
  destruct (existsSync w testFilePath); cbn [negb]; [|reflexivity].
  unfold bind at 1. unfold console_log at 1.
  unfold bind at 1. unfold do_readFileSync at 1.
  destruct (readFileSync w testFilePath) as [text|msg]; [|reflexivity].
  unfold bind at 1. unfold do_JSON_parse at 1.
  destruct (JSON_parse text) as [json|msg]; [|reflexivity].
  destruct (run_suite fuel (minimist args) args (dirname testFilePath) json w)
    as [[w' t] [[]|e|]]; cbn; rewrite ?app_nil_r; reflexivity.
Qed.

(** X7. In suite mode [main] throws a string in exactly two situations. The
    descriptor does not exist: the string is
    [Could not find the test file: <path>.]. Or the descriptor was read and
    parsed, the loop has reached its end with one failure or more and update
    mode is off: the string is the empty one. *)
Theorem suite_mode_throws_two_strings fuel args w descriptor msg :
  pco_help (minimist args) = false ->
  pco_test (minimist args) = Some descriptor ->
  descriptor <> "" ->
  let opts := minimist args in
  let testFilePath := resolve (pco_cwd opts) descriptor in
  (main fuel args w).2 = Throw (ThrowString msg) <->
  (existsSync w testFilePath = false /\
   msg = "Could not find the test file: " +:+ testFilePath +:+ ".") \/
  (existsSync w testFilePath = true /\
   msg = "" /\ pco_update opts = false /\
   exists text json w1 t1 f fs,
     readFileSync w testFilePath = HostOk text /\
     JSON_parse text = HostOk json /\
     loop fuel opts (dirname testFilePath) [] (tests json) w = (w1, t1, Return (f :: fs))).
Proof.
  intros Hh Ht Hne opts testFilePath.
  rewrite (main_in_suite_mode fuel args w descriptor Hh Ht Hne).
  cbn zeta. fold opts testFilePath.
  destruct (existsSync w testFilePath) eqn:Hex.
  2: { cbn [snd]. split.
       - intros [= <-]. left. split; reflexivity.
       - intros [[_ ->]|[[=] _]]. reflexivity. }
  destruct (readFileSync w testFilePath) as [text|rmsg] eqn:Hrd.
  2: { cbn [snd]. split; [discriminate|].
       intros [[[=] _]|(_ & _ & _ & ? & ? & ? & ? & ? & ? & [=] & _)]. }
  destruct (JSON_parse text) as [json|jmsg] eqn:Hjs.
  2: { cbn [snd]. split; [discriminate|].
       intros [[[=] _]|(_ & _ & _ & ? & ? & ? & ? & ? & ? & [= <-] & Hj & _)].
       rewrite Hjs in Hj. discriminate. }
  pose proof (run_suite_throws_string fuel opts args (dirname testFilePath) json w msg)
    as Hrun.
  destruct (run_suite fuel opts args (dirname testFilePath) json w) as [[w' t] r].
  cbn [snd] in *. split.
  - intros Hthrow. right.
    assert (Hr : r = Throw (ThrowString msg)) by (destruct r; congruence).
    destruct (proj1 Hrun Hr) as (-> & Hu & w1 & t1 & f & fs & Hl).
    repeat split; try assumption. exists text, json, w1, t1, f, fs. auto.
  - intros [[[=] _]|(_ & -> & Hu & text' & json' & w1 & t1 & f & fs & [= <-] & Hj & Hl)].
    rewrite Hjs in Hj. injection Hj as <-.
    assert (Hr : r = Throw (ThrowString "")).
    { apply Hrun. repeat split; try assumption. eauto. }
    rewrite Hr. reflexivity.
Qed.

Lemma loop_app fuel opts dir pre : forall post failed w,
  loop fuel opts dir failed (pre ++ post) w =
  match loop fuel opts dir failed pre w with
  | (w1, t1, Return failed1) =>
      let '(w2, t2, r) := loop fuel opts dir failed1 post w1 in (w2, t1 ++ t2, r)
  | (w1, t1, Throw e) => (w1, t1, Throw e)
  | (w1, t1, OutOfFuel) => (w1, t1, OutOfFuel)
  end.
Proof.
  induction pre as [|test pre IH]; intros post failed w.
  - cbn. destruct (loop fuel opts dir failed post w) as [[w2 t2] r]. reflexivity.
  - cbn [app]. rewrite !loop_cons.
    destruct (loop_body fuel opts dir failed test w) as [[w1 t1] [failed1|e|]];
      [|reflexivity..].
    rewrite IH.
    destruct (loop fuel opts dir failed1 pre w1) as [[w2 t2] [failed2|e|]];
      [|reflexivity..].
    destruct (loop fuel opts dir failed2 post w2) as [[w3 t3] r].
    rewrite app_assoc. reflexivity.
Qed.

(** X4. A failure of the checker is not local to its case. When the cases
    before it evaluate and the checker fails on a case, the suite run throws
    the checker's error at once: the cases after it are not invoked, no
    report is printed, and the failures collected so far are not shown; the
    only lines printed are the progress lines up to the failing case. *)
Theorem checker_failure_aborts_suite
    fuel opts args dir json w pre test post w1 ms msg :
  tests json = pre ++ test :: post ->
  suite_evaluates fuel opts dir w pre w1 ms ->
  checkSideEffects w1 (caseOptions opts dir test) = HostFail msg ->
  exists t,
    run_suite fuel opts args dir json w = (w1, t, Throw (HostError msg)) /\
    checks t = map (caseOptions opts dir) (pre ++ [test]) /\
    logs t = map (fun c => "Testing " +:+ modulesDescription c) (pre ++ [test]).
Proof.
  intros Hts Hev Hfail.
  destruct (loop_evaluates fuel opts dir w pre w1 ms Hev []) as [tp Hp].
  pose proof (loop_summary fuel opts dir pre [] w) as Hs. rewrite Hp in Hs.
  destruct Hs as (_ & _ & _ & Hr). destruct (Hr _ eq_refl) as (Hprog & _).
  rewrite run_suite_eq, Hts, loop_app, Hp, loop_cons, loop_body_eq. cbn zeta.
  rewrite Hfail. eexists. split; [reflexivity|].
  split.
  - unfold checks. rewrite omap_app, map_app. fold (checks tp).
    rewrite <- (checks_progress tp), Hprog, checks_caseProgress. reflexivity.
  - unfold logs. rewrite omap_app, map_app. fold (logs tp).
    rewrite <- (logs_progress tp), Hprog, logs_caseProgress. reflexivity.
Qed.

(** ** Without update mode *)

Lemma no_mutation_bind {A B} (m : M W A) (k : A -> M W B) :
  no_mutation m -> (forall a, no_mutation (k a)) -> no_mutation (bind m k).
Proof.
  intros Hm Hk w. unfold bind. specialize (Hm w).
  destruct (m w) as [[w1 t1] [a|e|]]; cbn [fst snd] in *; try exact Hm.
  specialize (Hk a w1). destruct (k a w1) as [[w2 t2] r]. cbn [fst snd] in *.
  destruct Hm as [Hw1 Hm1], Hk as [Hw2 Hm2].
  rewrite writes_app, mkdirs_app, Hw1, Hm1, Hw2, Hm2. split; reflexivity.
Qed.

(** X14. Without [--update], [main] never calls [writeFileSync] or
    [mkdirSync], whatever the arguments, the world and the answers of the
    collaborators: help, single runs, suites that pass, fail or abort. *)
Theorem main_without_update_never_writes fuel args w :
  pco_update (minimist args) = false ->
  writes (main fuel args w).1.2 = [] /\ mkdirs (main fuel args w).1.2 = [].
Proof.
  intros Hu. revert w. change (no_mutation (main fuel args)).
  assert (Hlog : forall line, no_mutation (W := W) (console_log line))
    by (intros line w; split; reflexivity).
  assert (Hret : forall A (a : A), no_mutation (W := W) (ret a))
    by (intros A a w; split; reflexivity).
  assert (Hthrow : forall A e, no_mutation (W := W) (A := A) (throw e))
    by (intros A e w; split; reflexivity).
  assert (Hcheck : forall o, no_mutation (do_checkSideEffects o)).
  { intros o w. unfold do_checkSideEffects.
    destruct (checkSideEffects w o) as [[w' r]|msg]; split; reflexivity. }
  assert (Hreport : forall failed,
            no_mutation (W := W) (report (minimist args) args failed)).
  { intros failed w. rewrite report_eq. unfold reportEvents. rewrite Hu.
    destruct failed; split; reflexivity. }
  assert (Hloop : forall dir ts, no_mutation (loop fuel (minimist args) dir [] ts)).
  { intros dir ts w.
    pose proof (loop_writes fuel (minimist args) dir ts [] w) as Hl.
    destruct (loop fuel (minimist args) dir [] ts w) as [[w1 t1] r1].
    destruct Hl as (_ & Hn). exact (Hn Hu). }
  unfold main.
  destruct (pco_help (minimist args)).
  { apply no_mutation_bind; [apply Hlog | intros; apply Hret]. }
  destruct (truthy (pco_test (minimist args))).
  - apply no_mutation_bind; [|intros; apply Hret].
    unfold suite_mode. apply no_mutation_bind.
    { intros w. split; reflexivity. }
    intros [|]; cbn [negb]; [|apply Hthrow].
    apply no_mutation_bind; [apply Hlog|]. intros _.
    apply no_mutation_bind.
    { intros w. unfold do_readFileSync.
      destruct (readFileSync w _); split; reflexivity. }
    intros text. apply no_mutation_bind.
    { intros w. unfold do_JSON_parse. destruct (JSON_parse text); split; reflexivity. }
    intros json. unfold run_suite. apply no_mutation_bind; [apply Hloop|].
    intros failed. apply Hreport.
  - apply no_mutation_bind; [|intros; apply Hret].
    unfold single_mode. apply no_mutation_bind.
    { unfold single_esModules.
      destruct (pco_positional (minimist args)); [apply Hthrow | apply Hret]. }
    intros esms. destruct (Nat.eqb (length esms) 0); [apply Hthrow | apply Hcheck].
Qed.

(** ** [_recursiveMkDir], call by call *)

(** X8. With the first [n] paths of the chain missing and the next one
    present, [_recursiveMkDir] first probes the chain from the path upwards,
    up to the one that exists, and only then calls [mkdirSync], on the
    missing paths from the outermost down to the path itself, stopping at the
    first call that fails; it makes no other call. *)
Theorem recursiveMkDir_creates_parents_first n : forall path w fuel,
  Forall (fun q => existsSync w q = false) (ancestors n path) ->
  existsSync w (Nat.iter n dirname path) = true ->
  n < fuel ->
  let '(w', t, r) := _recursiveMkDir fuel path w in
  r <> OutOfFuel /\
  exists made,
    t = map EvExists (ancestors n path ++ [Nat.iter n dirname path])
        ++ map EvMkdir made /\
    made `prefix_of` rev (ancestors n path) /\
    (r = Return tt -> made = rev (ancestors n path)).
Proof.
  induction n as [|n IH]; intros path w fuel Habs Hex Hfuel;
    (destruct fuel as [|fuel]; [lia|]); rewrite recursiveMkDir_S.
  - cbn in Hex. rewrite Hex. split; [discriminate|].
    exists []. split; [reflexivity|]. split; [apply prefix_nil | reflexivity].
  - cbn [ancestors] in *. apply Forall_cons in Habs as [Hhead Htail].
    rewrite Hhead. rewrite Nat.iter_succ_r in *.
    specialize (IH (dirname path) w fuel Htail Hex ltac:(lia)).
    destruct (_recursiveMkDir fuel (dirname path) w) as [[w1 t1] [[]|e|]];
      destruct IH as (Hne & made & -> & Hpre & Hall); [| |congruence].
    + rewrite (Hall eq_refl).
      assert (Ht : EvExists path
                   :: (map EvExists (ancestors n (dirname path)
                                     ++ [Nat.iter n dirname (dirname path)])
                       ++ map EvMkdir (rev (ancestors n (dirname path))))
                   ++ [EvMkdir path]
                 = map EvExists ((path :: ancestors n (dirname path))
                                 ++ [Nat.iter n dirname (dirname path)])
                   ++ map EvMkdir (rev (path :: ancestors n (dirname path)))).
      { cbn [rev map app]. rewrite !map_app, <- !app_assoc. reflexivity. }
      destruct (mkdirSync w1 path); (split; [discriminate|]);
        exists (rev (path :: ancestors n (dirname path))); rewrite Ht;
        (split; [reflexivity|]); (split; reflexivity).
    + split; [discriminate|]. exists made. split; [reflexivity|].
      split; [|discriminate]. cbn [rev]. apply prefix_app_r, Hpre.
Qed.

Lemma ancestors_iter n : forall path q,
  q ∈ ancestors n path <-> exists i, i < n /\ q = Nat.iter i dirname path.
Proof.
  induction n as [|n IH]; intros path q; cbn [ancestors].
  - split; [intros Hin; inversion Hin | intros (i & Hi & _); lia].
  - rewrite elem_of_cons, IH. split.
    + intros [->|(i & Hi & ->)].
      * exists 0. split; [lia | reflexivity].
      * exists (S i). split; [lia|]. rewrite Nat.iter_succ_r. reflexivity.
    + intros ([|i] & Hi & ->).
      * left. reflexivity.
      * right. exists i. split; [lia|]. rewrite Nat.iter_succ_r. reflexivity.
Qed.

Lemma iter_period {A} (f : A -> A) x j :
  Nat.iter j f x = x -> forall c r, Nat.iter (c * j + r) f x = Nat.iter r f x.
Proof.
  intros Hj c. induction c as [|c IH]; intros r; [reflexivity|].
  replace (S c * j + r) with ((c * j + r) + j) by lia.
  rewrite Nat.iter_add, Hj. apply IH.
Qed.

(** A missing path with an existing ancestor is not among its own ancestors. *)
Lemma ancestors_acyclic n path w :
  Forall (fun q => existsSync w q = false) (ancestors (S n) path) ->
  existsSync w (Nat.iter (S n) dirname path) = true ->
  path ∉ ancestors n (dirname path).
Proof.
  intros Habs Hex (i & Hi & Hq)%ancestors_iter.
  rewrite <- Nat.iter_succ_r in Hq. symmetry in Hq.
  pose proof (iter_period dirname path (S i) Hq (S n / S i) (S n mod S i)) as Hper.
  rewrite Nat.mul_comm, <- Nat.div_mod_eq in Hper.
  assert (Hr : S n mod S i < S n).
  { pose proof (Nat.mod_upper_bound (S n) (S i) ltac:(lia)). lia. }
  rewrite Forall_forall in Habs.
  assert (Hin : Nat.iter (S n mod S i) dirname path ∈ ancestors (S n) path).
  { apply ancestors_iter. eauto. }
  apply Habs in Hin. rewrite <- Hper, Hex in Hin. discriminate.
Qed.

(** X9. On a file system where a directory exists, and where [mkdirSync] of
    a missing path under a directory makes it a directory, keeps the
    directories there are and makes nothing else exist, [_recursiveMkDir]
    returns normally on every path whose nearest existing ancestor is a
    directory: afterwards the path is a directory, the directories there were
    are still there, and the only new paths are the missing ancestors. *)
Theorem recursiveMkDir_makes_directory (isDir : W -> string -> Prop) n :
  (forall w q, isDir w q -> existsSync w q = true) ->
  (forall w q,
     existsSync w q = false -> isDir w (dirname q) ->
     exists w',
       mkdirSync w q = HostOk w' /\ isDir w' q /\
       (forall q', isDir w q' -> isDir w' q') /\
       (forall q', existsSync w' q' = true -> q' = q \/ existsSync w q' = true)) ->
  forall path w fuel,
  Forall (fun q => existsSync w q = false) (ancestors n path) ->
  isDir w (Nat.iter n dirname path) ->
  n < fuel ->
  exists w' t,
    _recursiveMkDir fuel path w = (w', t, Return tt) /\
    isDir w' path /\
    (forall q, isDir w q -> isDir w' q) /\
    (forall q, existsSync w' q = true ->
       existsSync w q = true \/ q ∈ ancestors n path).
Proof.
  intros Hde Hmk. induction n as [|n IH]; intros path w fuel Habs Hdir Hfuel;
    (destruct fuel as [|fuel]; [lia|]); rewrite recursiveMkDir_S.
  - cbn in Hdir. rewrite (Hde _ _ Hdir). exists w. eexists. eauto.
  - pose proof (ancestors_acyclic n path w Habs (Hde _ _ Hdir)) as Hacyc.
    cbn [ancestors] in Habs. apply Forall_cons in Habs as [Hhead Htail].
    rewrite Hhead. rewrite Nat.iter_succ_r in Hdir.
    destruct (IH (dirname path) w fuel Htail Hdir ltac:(lia))
      as (w1 & t1 & -> & Hd1 & Hkeep1 & Hnew1).
    assert (Hmiss : existsSync w1 path = false).
    { destruct (existsSync w1 path) eqn:He; [|reflexivity].
      destruct (Hnew1 path He) as [Hw|Hin]; [congruence | contradiction]. }
    destruct (Hmk w1 path Hmiss Hd1) as (w2 & -> & Hd2 & Hkeep2 & Hnew2).
    exists w2. eexists. split; [reflexivity|]. split; [exact Hd2|]. split.
    + intros q Hq. apply Hkeep2, Hkeep1, Hq.
    + intros q Hq. cbn [ancestors]. rewrite elem_of_cons.
      destruct (Hnew2 q Hq) as [->|Hq1]; [auto|].
      destruct (Hnew1 q Hq1); auto.
Qed.

(** ** A snapshot, once rewritten *)

(** X10. On a file system where a file just written exists and reads back
    as written: once update mode has rewritten the snapshot of a case, an
    iteration on that case in which the checker gives the same report and
    leaves the snapshot alone passes, in either mode; it adds no failure and
    writes nothing. *)
Theorem updated_snapshot_passes_next_check
    fuel opts dir failed test w1 w2 w3 t2 result :
  (forall w p d w',
     writeFileSync w p d = HostOk w' ->
     existsSync w' p = true /\ readFileSync w' p = HostOk d) ->
  updateSnapshot fuel (expectedOutputPath dir test) result w1 = (w2, t2, Return tt) ->
  checkSideEffects w2 (caseOptions opts dir test) = HostOk (w3, result) ->
  loadExpected w3 (expectedOutputPath dir test)
  = loadExpected w2 (expectedOutputPath dir test) ->
  exists t,
    loop_body fuel opts dir failed test w2 = (w3, t, Return failed) /\
    writes t = [] /\ mkdirs t = [].
Proof.
  intros Hlaw Hup Hc Hsame.
  assert (Hl : loadExpected w2 (expectedOutputPath dir test) = HostOk result).
  { unfold updateSnapshot, bind in Hup.
    destruct (_recursiveMkDir fuel (dirname (expectedOutputPath dir test)) w1)
      as [[wa ta] [[]|e|]]; try discriminate.
    unfold do_writeFileSync in Hup.
    destruct (writeFileSync wa (expectedOutputPath dir test) result) as [wb|msg] eqn:Hw;
      [|discriminate].
    injection Hup as <- _. destruct (Hlaw _ _ _ _ Hw) as [He Hr].
    unfold loadExpected. rewrite He. exact Hr. }
  rewrite loop_body_eq. cbn zeta. rewrite Hc, Hsame, Hl, String.eqb_refl.
  destruct (loadEvents_calls w3 (expectedOutputPath dir test))
    as (_ & _ & Hw & Hm & _).
  eexists. split; [reflexivity|].
  rewrite writes_app, mkdirs_app, Hw, Hm. split; reflexivity.
Qed.

Lemma updateSnapshot_writes_once fuel path data w w' t :
  updateSnapshot fuel path data w = (w', t, Return tt) ->
  writes t = [(path, data)].
Proof.
  unfold updateSnapshot, bind.
  pose proof (recursiveMkDir_calls fuel (dirname path) w) as Hc. cbn zeta in Hc.
  destruct (_recursiveMkDir fuel (dirname path) w) as [[w1 t1] [[]|e|]];
    try discriminate.
  cbn [fst snd] in Hc. destruct Hc as (_ & _ & Hw).
  unfold do_writeFileSync.
  destruct (writeFileSync w1 path data); [|discriminate].
  intros [= _ <-]. rewrite writes_app, Hw. reflexivity.
Qed.

(** In update mode, when no collaborator fails, the loop has called
    [writeFileSync] exactly once for each failure it returns. *)
Lemma loop_writes_once_per_failure fuel opts dir w tests w' ms :
  pco_update opts = true ->
  suite_evaluates fuel opts dir w tests w' ms ->
  forall failed, exists t,
    loop fuel opts dir failed tests w = (w', t, Return (failed ++ ms)) /\
    length (writes t) = length ms.
Proof.
  intros Hupd.
  induction 1 as [w | w test rest w1 result w' ms Hc Hl _ IH
                    | w test rest w1 result expected w2 w' ms Hc Hl Hne Hu _ IH];
    intros failed.
  - exists []. cbn. rewrite app_nil_r. split; reflexivity.
  - destruct (IH failed) as (t & Ht & Hlen).
    rewrite loop_cons, loop_body_eq. cbn zeta.
    rewrite Hc, Hl, String.eqb_refl, Ht.
    destruct (loadEvents_calls w1 (expectedOutputPath dir test)) as (_ & _ & Hw & _).
    eexists. split; [reflexivity|]. rewrite !writes_app, Hw. exact Hlen.
  - rewrite Hupd in Hu. destruct Hu as [tu Hu].
    destruct (IH (failed ++ [failedExpectation dir test expected result]))
      as (t & Ht & Hlen).
    rewrite loop_cons, loop_body_eq. cbn zeta. rewrite Hc, Hl.
    destruct (String.eqb_spec result expected) as [?|_]; [contradiction|].
    rewrite Hupd, Hu, Ht.
    destruct (loadEvents_calls w1 (expectedOutputPath dir test)) as (_ & _ & Hw & _).
    rewrite <- (app_assoc failed). eexists. split; [reflexivity|].
    rewrite !writes_app, Hw, (updateSnapshot_writes_once _ _ _ _ _ _ Hu).
    cbn. rewrite Hlen. reflexivity.
Qed.

(** X15. In update mode, when no collaborator fails and one comparison or
    more failed, the suite run returns normally and the number in its last
    line, [N test expectations updated.], is the number of [writeFileSync]
    calls it has made, one for each failure. It counts calls, not files:
    cases that share a snapshot path each make their own call. *)
Theorem update_count_is_number_of_write_calls fuel opts args dir json w w' ms :
  pco_update opts = true ->
  suite_evaluates fuel opts dir w (tests json) w' ms ->
  ms <> [] ->
  (run_suite fuel opts args dir json w).2 = Return tt /\
  length (writes (run_suite fuel opts args dir json w).1.2) = length ms /\
  last (logs (run_suite fuel opts args dir json w).1.2) =
    Some (show_nat (length (writes (run_suite fuel opts args dir json w).1.2))
          +:+ " test expectations updated." +:+ nl).
Proof.
  intros Hupd Hev Hne.
  destruct (loop_writes_once_per_failure fuel opts dir w (tests json) w' ms Hupd Hev [])
    as (t & Ht & Hlen).
  cbn [app] in Ht. rewrite run_suite_eq, Ht. unfold reportEvents. rewrite Hupd.
  destruct ms as [|f fs]; [contradiction|]. cbn [fst snd].
  assert (Hw : writes (t ++ [EvLog "";
                             EvLog ("The following snapshots have changed:" +:+ nl +:+ nl);
                             EvLog (join nl (map snapshotChanged (f :: fs)))]
                          ++ [EvLog (show_nat (length (f :: fs))
                                     +:+ " test expectations updated." +:+ nl)])
               = writes t).
  { rewrite writes_app. cbn. apply app_nil_r. }
  rewrite Hw, Hlen. conjs; [reflexivity..|].
  unfold logs. rewrite omap_app.
  change (omap _ ([EvLog "";
                   EvLog ("The following snapshots have changed:" +:+ nl +:+ nl);
                   EvLog (join nl (map snapshotChanged (f :: fs)))]
                  ++ [EvLog (show_nat (length (f :: fs))
                             +:+ " test expectations updated." +:+ nl)]))
    with ([""; "The following snapshots have changed:" +:+ nl +:+ nl;
           join nl (map snapshotChanged (f :: fs))]
          ++ [show_nat (length (f :: fs)) +:+ " test expectations updated." +:+ nl]).
  rewrite app_assoc. apply last_snoc.
Qed.

End DriverExtras.

(** ** The POSIX host *)

Lemma length_substring_0 s : forall e,
  e <= String.length s -> String.length (substring 0 e s) = e.
Proof.
  induction s as [|c s IH]; intros [|e] Hle; cbn in *; try lia.
  rewrite IH by lia. reflexivity.
Qed.

Lemma hasRoot_substring_0 s e :
  Posix.hasRoot s = true -> 1 <= e -> Posix.hasRoot (substring 0 e s) = true.
Proof.
  destruct s as [|c s]; [discriminate|]. destruct e as [|e]; [lia|].
  intros Hr _. exact Hr.
Qed.

(** The separator found by the scan of [dirname] lies at index 1 or more, and
    below the start of the scan when the scan starts after a separator. *)
Lemma dirname_scan_bounds path i : forall matchedSlash e,
  Posix.dirname_scan path i matchedSlash = Some e ->
  1 <= e <= i /\ (matchedSlash = true -> e < i).
Proof.
  induction i as [|i IH]; intros ms e; [discriminate|].
  cbn [Posix.dirname_scan].
  destruct (String.get (S i) path) as [c|].
  - destruct (Ascii.eqb_spec c "/"%char) as [->|Hc].
    + destruct ms; cbn [negb].
      * intros Hs. destruct (IH _ _ Hs) as [Hb Hlt]. split; [lia|]. intros _.
        specialize (Hlt eq_refl). lia.
      * intros [= <-]. split; [lia | discriminate].
    + assert (Hgo : forall r,
        match c with
        | "/"%char => r
        | _ => Posix.dirname_scan path i false
        end = Posix.dirname_scan path i false).
      { intros r. destruct c as [[] [] [] [] [] [] [] []]; try reflexivity.
        contradiction Hc. reflexivity. }
      rewrite Hgo. intros Hs. destruct (IH _ _ Hs) as [Hb _]. split; lia.
  - intros Hs. destruct (IH _ _ Hs) as [Hb _]. split; lia.
Qed.

(** [dirname] of an absolute path is the root or a shorter absolute path. *)
Lemma dirname_absolute path :
  Posix.hasRoot path = true ->
  Posix.hasRoot (Posix.dirname path) = true /\
  (Posix.dirname path = "/" \/
   String.length (Posix.dirname path) < String.length path).
Proof.
  intros Hr. unfold Posix.dirname.
  destruct (Nat.eqb_spec (String.length path) 0) as [H0|Hn0].
  { destruct path; [discriminate Hr | discriminate H0]. }
  destruct (Posix.dirname_scan path (String.length path - 1) true) as [e|] eqn:Hs.
  - destruct (dirname_scan_bounds _ _ _ _ Hs) as [Hb Hlt]. specialize (Hlt eq_refl).
    rewrite Hr. cbn [andb].
    destruct (Nat.eqb_spec e 1) as [->|He].
    + split; [reflexivity|]. right. cbn. lia.
    + split; [apply hasRoot_substring_0; [assumption | lia]|].
      right. rewrite length_substring_0 by lia. lia.
  - rewrite Hr. split; [reflexivity | left; reflexivity].
Qed.

(** Every absolute path reaches the root under [dirname], in no more steps
    than it has characters, and stays there. *)
Lemma dirname_reaches_root k : forall path,
  Posix.hasRoot path = true ->
  String.length path <= k ->
  Nat.iter k Posix.dirname path = "/".
Proof.
  induction k as [|k IH]; intros path Hr Hlen.
  - destruct path; [discriminate Hr | cbn in Hlen; lia].
  - rewrite Nat.iter_succ_r.
    destruct (dirname_absolute path Hr) as [Hr' [Hroot|Hlt]].
    + rewrite Hroot. clear. induction k as [|k IH]; [reflexivity|].
      rewrite Nat.iter_succ_r. exact IH.
    + apply IH; [exact Hr' | lia].
Qed.

(** On a file system that has its root, [_recursiveMkDir] terminates on
    every absolute path, with fuel above the length of the path. *)
Lemma recursiveMkDir_terminates_on_absolute_paths
    pcwd parse patch checker (w : Posix.fs) path fuel :
  Posix.existsSync w "/" = true ->
  Posix.hasRoot path = true ->
  String.length path < fuel ->
  (_recursiveMkDir (H := Posix.host pcwd parse patch checker) fuel path w).2
  <> OutOfFuel.
Proof.
  intros Hroot Hr Hfuel.
  apply (recursiveMkDir_enough_fuel (H := Posix.host pcwd parse patch checker)
           (String.length path)); [|exact Hfuel].
  change (Posix.existsSync w (Nat.iter (String.length path) Posix.dirname path) = true).
  rewrite dirname_reaches_root by (assumption || lia). exact Hroot.
Qed.

(** The directory of the descriptor is an absolute path, and a path resolved
    against it is the same in every process working directory. *)
Lemma descriptor_dir_is_absolute pcwd cwd descriptor :
  let dir := Posix.dirname (Posix.resolve pcwd cwd descriptor) in
  Posix.hasRoot dir = true /\
  forall pcwd' rel, Posix.resolve pcwd' dir rel = Posix.resolve pcwd dir rel.
Proof.
  cbn zeta.
  assert (Hr : Posix.hasRoot (Posix.dirname (Posix.resolve pcwd cwd descriptor)) = true).
  { apply dirname_absolute. unfold Posix.resolve.
    destruct (Posix.hasRoot descriptor), (Posix.hasRoot cwd); reflexivity. }
  split; [exact Hr|].
  intros pcwd' rel. unfold Posix.resolve at 1 3. rewrite Hr.
  destruct (Posix.hasRoot rel); reflexivity.
Qed.

(** ** The sample suite, run *)

#[local] Existing Instance Sample.host.

Lemma sample_evaluates :
  suite_evaluates (H := Sample.host) 5 Sample.opts Sample.dir
    Sample.world (tests Sample.suite) Sample.world
    [Sample.failure_a; Sample.failure_d].
Proof.
  apply (evaluates_mismatch (H := Sample.host) 5 Sample.opts Sample.dir
           Sample.world Sample.case_a [Sample.case_b; Sample.case_d]
           Sample.world "effects of /w/t/a.js" "" Sample.world Sample.world
           [Sample.failure_d]); try reflexivity; [discriminate|].
  apply (evaluates_pass (H := Sample.host) 5 Sample.opts Sample.dir
           Sample.world Sample.case_b [Sample.case_d]
           Sample.world "effects of /w/t/b.js /w/t/c.js" Sample.world
           [Sample.failure_d]); try reflexivity.
  apply (evaluates_mismatch (H := Sample.host) 5 Sample.opts Sample.dir
           Sample.world Sample.case_d []
           Sample.world "effects of /w/t/d.js" "" Sample.world Sample.world
           []); try reflexivity; [discriminate|].
  apply evaluates_nil.
Defined.

Lemma sample_evaluates_update :
  suite_evaluates (H := Sample.host) 5 Sample.opts_update Sample.dir
    Sample.world (tests Sample.suite) Sample.world_updated
    [Sample.failure_a; Sample.failure_d].
Proof.
  apply (evaluates_mismatch (H := Sample.host) 5 Sample.opts_update Sample.dir
           Sample.world Sample.case_a [Sample.case_b; Sample.case_d]
           Sample.world "effects of /w/t/a.js" "" Sample.world_a Sample.world_updated
           [Sample.failure_d]); try reflexivity; [discriminate | |].
  { eexists. vm_compute. reflexivity. }
  apply (evaluates_pass (H := Sample.host) 5 Sample.opts_update Sample.dir
           Sample.world_a Sample.case_b [Sample.case_d]
           Sample.world_a "effects of /w/t/b.js /w/t/c.js" Sample.world_updated
           [Sample.failure_d]); try reflexivity.
  apply (evaluates_mismatch (H := Sample.host) 5 Sample.opts_update Sample.dir
           Sample.world_a Sample.case_d []
           Sample.world_a "effects of /w/t/d.js" "" Sample.world_updated
           Sample.world_updated []); try reflexivity; [discriminate | |].
  { eexists. vm_compute. reflexivity. }
  apply evaluates_nil.
Defined.

Lemma recursiveMkDir_terminates_and_keeps_existing_witness :
  existsSync Sample.world (Nat.iter 2 dirname "/w/t/snaps/new") = true /\
  (_recursiveMkDir 9 "/w/t/snaps/new" Sample.world).2 <> OutOfFuel /\
  _recursiveMkDir 9 "/w/t/snaps/new" Sample.world =
    _recursiveMkDir 3 "/w/t/snaps/new" Sample.world /\
  _recursiveMkDir 4 "/w/t" Sample.world = (Sample.world, [EvExists "/w/t"], Return tt).
Proof.
  assert (Hnew : existsSync Sample.world (Nat.iter 2 dirname "/w/t/snaps/new") = true)
    by reflexivity.
  assert (Hold : existsSync Sample.world (Nat.iter 0 dirname "/w/t") = true)
    by reflexivity.
  split; [exact Hnew|].
  destruct (recursiveMkDir_terminates_and_keeps_existing
              Sample.world "/w/t/snaps/new" 2 Hnew) as [Ha _].
  destruct (Ha 9 ltac:(lia)) as [Hb Hc].
  destruct (recursiveMkDir_terminates_and_keeps_existing
              Sample.world "/w/t" 0 Hold) as [_ Hd].
  split; [exact Hb|]. split; [exact Hc|]. exact (Hd eq_refl 3).
Defined.

Lemma missing_snapshot_compares_to_empty_witness :
  existsSync Sample.world "/w/t/a.snap" = false /\
  loop_body 5 Sample.opts Sample.dir [] Sample.case_a Sample.world =
    (Sample.world,
     [EvLog "Testing a.js";
      EvCheck (caseOptions Sample.opts Sample.dir Sample.case_a);
      EvExists "/w/t/a.snap"],
     Return [Sample.failure_a]).
Proof.
  split; [reflexivity|].
  exact (proj2 (missing_snapshot_compares_to_empty 5 Sample.opts Sample.dir []
                  Sample.case_a Sample.world Sample.world "effects of /w/t/a.js"
                  eq_refl eq_refl)).
Defined.

Lemma no_module_is_configuration_error_witness :
  single_esModules (minimist ["/usr/bin/node"; "/path/cli.js"]) Sample.world =
    (Sample.world, [], Return []) /\
  main 5 ["/usr/bin/node"; "/path/cli.js"] Sample.world =
    (Sample.world, [],
     Throw (ThrowString
       "You must provide at least one ES module. Use --help for usage information.")).
Proof.
  split; [reflexivity|].
  exact (no_module_is_configuration_error 5 ["/usr/bin/node"; "/path/cli.js"]
           Sample.world eq_refl eq_refl eq_refl).
Defined.

Lemma invocation_style_normalization_witness :
  pco_positional (minimist ["/usr/bin/node"; "/path/cli.js"; "mod.js"]) =
    ["/usr/bin/node"; "/path/cli.js"; "mod.js"] /\
  pco_positional (minimist ["check-side-effects"; "mod.js"]) =
    ["check-side-effects"; "mod.js"] /\
  single_esModules (minimist ["/usr/bin/node"; "/path/cli.js"; "mod.js"]) Sample.world =
    (Sample.world, [], Return ["mod.js"]) /\
  single_esModules (minimist ["check-side-effects"; "mod.js"]) Sample.world =
    (Sample.world, [], Return ["mod.js"]).
Proof.
  split; [reflexivity|]. split; [reflexivity|]. split.
  - exact (proj1 (proj2 (proj2
      (invocation_style_normalization
         (minimist ["/usr/bin/node"; "/path/cli.js"; "mod.js"]) Sample.world
         "/usr/bin/node" ["/path/cli.js"; "mod.js"] eq_refl))) eq_refl).
  - exact (proj2 (proj2 (proj2
      (invocation_style_normalization
         (minimist ["check-side-effects"; "mod.js"]) Sample.world
         "check-side-effects" ["mod.js"] eq_refl))) eq_refl).
Defined.

Lemma modules_normalized_and_resolved_from_descriptor_dir_witness :
  dirname (resolve (pco_cwd (minimist Sample.args)) "t/tests.json") = "/w/t" /\
  map cse_esModules (checks (main 5 Sample.args Sample.world).1.2)
  = [["/w/t/a.js"]; ["/w/t/b.js"; "/w/t/c.js"]; ["/w/t/d.js"]] /\
  probes (main 5 Sample.args Sample.world).1.2
  = ["/w/t/tests.json"; "/w/t/a.snap"; "/w/t/b.snap"; "/w/t/snaps/new/d.snap"] /\
  cse_esModules
    (caseOptions Sample.opts "/w/t"
       {| esModules := OneModule "a.js"; options := None; expectedOutput := "a.snap" |})
  = ["/w/t/a.js"] /\
  cse_esModules
    (caseOptions Sample.opts "/w/t"
       {| esModules := ModuleArray ["a.js"]; options := None; expectedOutput := "a.snap" |})
  = ["/w/t/a.js"].
Proof.
  split; [reflexivity|].
  assert (Hhelp : pco_help (minimist Sample.args) = false) by reflexivity.
  assert (Htest : pco_test (minimist Sample.args) = Some "t/tests.json") by reflexivity.
  assert (Hname : "t/tests.json" <> "") by discriminate.
  assert (Hfound : existsSync Sample.world
                     (resolve (pco_cwd (minimist Sample.args)) "t/tests.json") = true)
    by reflexivity.
  assert (Hread : readFileSync Sample.world
                    (resolve (pco_cwd (minimist Sample.args)) "t/tests.json")
                  = HostOk "suite") by reflexivity.
  assert (Hparse : JSON_parse "suite" = HostOk Sample.suite) by reflexivity.
  assert (Hplain : pco_update (minimist Sample.args) = false) by reflexivity.
  destruct (modules_normalized_and_resolved_from_descriptor_dir
              5 Sample.args Sample.world "t/tests.json" "suite" Sample.suite
              Hhelp Htest Hname Hfound Hread Hparse)
    as (_ & Hrun & Hsame & _).
  destruct (Hrun Sample.world _ sample_evaluates) as (Hchecks & _ & Hprobes).
  destruct (Hsame "a.js" None "a.snap" [] Sample.world) as (_ & _ & Ha & Hb & _).
  split; [exact Hchecks|]. split; [exact (Hprobes Hplain)|].
  split; [exact Ha | exact Hb].
Defined.

Lemma update_mode_never_raises_witness :
  pco_update Sample.opts_update = true /\
  exists t,
    loop 5 Sample.opts_update Sample.dir [] (tests Sample.suite) Sample.world =
      (Sample.world_updated, t, Return [Sample.failure_a; Sample.failure_d]) /\
    run_suite 5 Sample.opts_update Sample.args_update Sample.dir Sample.suite Sample.world =
      (Sample.world_updated,
       t ++ [EvLog "";
             EvLog ("The following snapshots have changed:" +:+ nl +:+ nl);
             EvLog (join nl (map snapshotChanged [Sample.failure_a; Sample.failure_d]));
             EvLog ("2 test expectations updated." +:+ nl)],
       Return tt).
Proof.
  assert (Hupd : pco_update Sample.opts_update = true) by reflexivity.
  split; [exact Hupd|].
  exact (proj2 (update_mode_never_raises 5 Sample.opts_update Sample.args_update
                  Sample.dir Sample.suite Sample.world Hupd)
           Sample.world_updated [Sample.failure_a; Sample.failure_d]
           sample_evaluates_update).
Defined.

Lemma failing_suite_reports_then_raises_witness :
  pco_update Sample.opts = false /\
  exists t,
    loop 5 Sample.opts Sample.dir [] (tests Sample.suite) Sample.world =
      (Sample.world, t,
       Return [ {| testDescription := "a.js";
                   diff := "--- /w/t/a.snap
-
+effects of /w/t/a.js" |};
                {| testDescription := "d.js";
                   diff := "--- /w/t/snaps/new/d.snap
-
+effects of /w/t/d.js" |} ]) /\
    run_suite 5 Sample.opts Sample.args Sample.dir Sample.suite Sample.world =
      (Sample.world,
       t ++ [EvLog "";
             EvLog "The following snapshots have changed:

";
             EvLog "Snapshot for a.js changed:

--- /w/t/a.snap
-
+effects of /w/t/a.js

Snapshot for d.js changed:

--- /w/t/snaps/new/d.snap
-
+effects of /w/t/d.js
";
             EvLog "2 tests failed, see above for diffs.";
             EvLog "To update the expectations, run this command again with the --update flag:";
             EvLog "";
             EvLog "  /usr/bin/node /path/cli.js --test t/tests.json --update"],
       Throw (ThrowString "")).
Proof.
  assert (Hupd : pco_update Sample.opts = false) by reflexivity.
  assert (Hne : [Sample.failure_a; Sample.failure_d] <> []) by discriminate.
  split; [exact Hupd|].
  exact (failing_suite_reports_then_raises 5 Sample.opts Sample.args Sample.dir
           Sample.suite Sample.world Sample.world
           [Sample.failure_a; Sample.failure_d] Hupd sample_evaluates Hne).
Defined.

Lemma evaluation_is_batch_witness :
  exists t,
    loop 5 Sample.opts Sample.dir [] (tests Sample.suite) Sample.world =
      (Sample.world, t, Return [Sample.failure_a; Sample.failure_d]) /\
    checks t = map (caseOptions Sample.opts Sample.dir)
                 [Sample.case_a; Sample.case_b; Sample.case_d] /\
    ["/w/t/a.snap"; "/w/t/b.snap"; "/w/t/snaps/new/d.snap"] `sublist_of` probes t /\
    2 <= 3.
Proof.
  exact (proj2 (evaluation_is_batch 5 Sample.opts Sample.dir (tests Sample.suite)
                  [] Sample.world)
           Sample.world [Sample.failure_a; Sample.failure_d] sample_evaluates).
Defined.

Lemma snapshot_written_only_on_update_mismatch_witness :
  writes (loop_body 5 Sample.opts_update Sample.dir [] Sample.case_a Sample.world).1.2
    = [("/w/t/a.snap", "effects of /w/t/a.js")] /\
  writes (loop_body 5 Sample.opts_update Sample.dir [] Sample.case_b Sample.world).1.2
    = [] /\
  writes (loop 5 Sample.opts Sample.dir [] (tests Sample.suite) Sample.world).1.2 = [] /\
  mkdirs (loop 5 Sample.opts Sample.dir [] (tests Sample.suite) Sample.world).1.2 = [].
Proof.
  pose proof (snapshot_written_only_on_update_mismatch 5 Sample.opts_update Sample.dir
                [] [] Sample.case_b Sample.world) as [Hb _].
  pose proof (snapshot_written_only_on_update_mismatch 5 Sample.opts Sample.dir
                (tests Sample.suite) [] Sample.case_a Sample.world) as [_ Hl].
  destruct (loop_body 5 Sample.opts_update Sample.dir [] Sample.case_b Sample.world)
    as [[wb tb] rb] eqn:Eb.
  destruct (loop 5 Sample.opts Sample.dir [] (tests Sample.suite) Sample.world)
    as [[wl tl] rl] eqn:El.
  destruct Hb as [_ Hb]. destruct Hl as (_ & _ & Hl).
  assert (Hplain : pco_update Sample.opts = false) by reflexivity.
  assert (Hcheck : checkSideEffects Sample.world
                     (caseOptions Sample.opts_update Sample.dir Sample.case_b)
                   = HostOk (Sample.world, "effects of /w/t/b.js /w/t/c.js"))
    by reflexivity.
  assert (Hload : loadExpected Sample.world
                    (expectedOutputPath Sample.dir Sample.case_b)
                  = HostOk "effects of /w/t/b.js /w/t/c.js") by reflexivity.
  destruct (Hb _ _ _ Hcheck Hload (or_intror eq_refl)) as (_ & Hwb & _).
  destruct (Hl Hplain) as [Hwl Hml].
  cbn [fst snd]. split; [reflexivity|]. split; [exact Hwb|]. split; assumption.
Defined.

Lemma one_progress_line_per_case_witness :
  logs (loop 5 Sample.opts Sample.dir [] (tests Sample.suite) Sample.world).1.2 =
    ["Testing a.js"; "Testing b.js c.js"; "Testing d.js"].
Proof.
  pose proof (one_progress_line_per_case 5 Sample.opts Sample.dir (tests Sample.suite)
                [] Sample.world) as Hc.
  destruct (loop 5 Sample.opts Sample.dir [] (tests Sample.suite) Sample.world)
    as [[w' t] r].
  destruct Hc as (_ & Hr & Hev).
  destruct (Hr _ (Hev _ _ sample_evaluates)) as (_ & Hl & _).
  exact Hl.
Defined.

(** ** The further properties, on the sample suite *)

Lemma descriptor_errors_are_fatal_witness :
  main 5 ["/usr/bin/node"; "/path/cli.js"; "--test"; "missing.json"] Sample.world
  = (Sample.world, [EvExists "/w/missing.json"],
     Throw (ThrowString "Could not find the test file: /w/missing.json.")) /\
  main 5 ["/usr/bin/node"; "/path/cli.js"; "--test"; "t/b.snap"] Sample.world
  = (Sample.world,
     [EvExists "/w/t/b.snap"; EvLog ("Loading tests from /w/t/b.snap" +:+ nl);
      EvRead "/w/t/b.snap"],
     Throw (HostError "SyntaxError")).
Proof.
  split.
  - assert (Hh : pco_help (minimist ["/usr/bin/node"; "/path/cli.js"; "--test";
                                     "missing.json"]) = false) by reflexivity.
    assert (Ht : pco_test (minimist ["/usr/bin/node"; "/path/cli.js"; "--test";
                                     "missing.json"]) = Some "missing.json")
      by reflexivity.
    assert (Hne : "missing.json" <> "") by discriminate.
    assert (Hex : existsSync Sample.world "/w/missing.json" = false) by reflexivity.
    exact (proj1 (descriptor_errors_are_fatal 5 _ Sample.world "missing.json"
                    Hh Ht Hne) Hex).
  - assert (Hh : pco_help (minimist ["/usr/bin/node"; "/path/cli.js"; "--test";
                                     "t/b.snap"]) = false) by reflexivity.
    assert (Ht : pco_test (minimist ["/usr/bin/node"; "/path/cli.js"; "--test";
                                     "t/b.snap"]) = Some "t/b.snap")
      by reflexivity.
    assert (Hne : "t/b.snap" <> "") by discriminate.
    assert (Hex : existsSync Sample.world "/w/t/b.snap" = true) by reflexivity.
    assert (Hrd : readFileSync Sample.world "/w/t/b.snap"
                  = HostOk "effects of /w/t/b.js /w/t/c.js") by reflexivity.
    assert (Hjs : JSON_parse "effects of /w/t/b.js /w/t/c.js"
                  = HostFail "SyntaxError") by reflexivity.
    exact (proj2 (proj2 (descriptor_errors_are_fatal 5 _ Sample.world "t/b.snap"
                           Hh Ht Hne)) Hex _ _ Hrd Hjs).
Defined.

Lemma single_run_without_positional_is_type_error_witness :
  main 5 [] Sample.world =
  (Sample.world, [],
   Throw (TypeError "Cannot read properties of undefined (reading 'endsWith')")).
Proof.
  assert (Hh : pco_help (minimist []) = false) by reflexivity.
  assert (Ht : truthy (pco_test (minimist [])) = false) by reflexivity.
  assert (Hp : pco_positional (minimist []) = []) by reflexivity.
  exact (single_run_without_positional_is_type_error 5 [] Sample.world Hh Ht Hp).
Defined.

Lemma module_after_node_named_binary_is_dropped_witness :
  main 5 ["/opt/bin/check-node"; "mod.js"] Sample.world =
  (Sample.world, [],
   Throw (ThrowString
     "You must provide at least one ES module. Use --help for usage information.")).
Proof.
  assert (Hh : pco_help (minimist ["/opt/bin/check-node"; "mod.js"]) = false)
    by reflexivity.
  assert (Ht : truthy (pco_test (minimist ["/opt/bin/check-node"; "mod.js"])) = false)
    by reflexivity.
  assert (Hp : pco_positional (minimist ["/opt/bin/check-node"; "mod.js"])
               = ["/opt/bin/check-node"; "mod.js"]) by reflexivity.
  assert (Hn : exists pre, "/opt/bin/check-node" = pre +:+ "node"
                           \/ "/opt/bin/check-node" = pre +:+ "node.exe")
    by (exists "/opt/bin/check-"; left; reflexivity).
  exact (module_after_node_named_binary_is_dropped 5 _ Sample.world _ _ Hh Ht Hp Hn).
Defined.

Lemma single_run_forwards_to_checker_witness :
  main 5 ["/usr/bin/node"; "/path/cli.js"; "mod.js"] Sample.world =
  (Sample.world,
   [EvCheck {| cse_esModules := ["mod.js"];
               cse_cwd := Some "/w";
               cse_output := None;
               cse_propertyReadSideEffects := Some true;
               cse_resolveExternals := Some false;
               cse_printDependencies := Some false;
               cse_useBuildOptimizer := Some true;
               cse_useMinifier := Some true;
               cse_warnings := Some false |}],
   Return (Some "effects of mod.js")).
Proof.
  assert (Hh : pco_help (minimist ["/usr/bin/node"; "/path/cli.js"; "mod.js"]) = false)
    by reflexivity.
  assert (Ht : truthy (pco_test (minimist ["/usr/bin/node"; "/path/cli.js"; "mod.js"]))
               = false) by reflexivity.
  assert (Hp : pco_positional (minimist ["/usr/bin/node"; "/path/cli.js"; "mod.js"])
               = "/usr/bin/node" :: ["/path/cli.js"; "mod.js"]) by reflexivity.
  assert (Hne : (if isNodeBinary "/usr/bin/node"
                 then drop 1 ["/path/cli.js"; "mod.js"]
                 else ["/path/cli.js"; "mod.js"]) <> []) by discriminate.
  exact (single_run_forwards_to_checker 5 _ Sample.world _ _ Hh Ht Hp Hne).
Defined.

Lemma main_without_update_never_writes_witness :
  writes (main 5 Sample.args Sample.world).1.2 = [] /\
  mkdirs (main 5 Sample.args Sample.world).1.2 = [].
Proof.
  assert (Hu : pco_update (minimist Sample.args) = false) by reflexivity.
  exact (main_without_update_never_writes 5 Sample.args Sample.world Hu).
Defined.

Lemma accumulator_only_grows_witness :
  loop 5 Sample.opts Sample.dir [Sample.failure_d] (tests Sample.suite) Sample.world
  = (let '(w', t, r) :=
       loop 5 Sample.opts Sample.dir [] (tests Sample.suite) Sample.world in
     (w', t,
      match r with
      | Return new => Return ([Sample.failure_d] ++ new)
      | Throw e => Throw e
      | OutOfFuel => OutOfFuel
      end)).
Proof.
  exact (accumulator_only_grows 5 Sample.opts Sample.dir (tests Sample.suite)
           [Sample.failure_d] Sample.world).
Defined.

Lemma failures_keep_descriptor_order_witness :
  ["a.js"; "d.js"] `sublist_of` ["a.js"; "b.js c.js"; "d.js"] /\ 2 <= 3.
Proof.
  pose proof (failures_keep_descriptor_order 5 Sample.opts Sample.dir
                (tests Sample.suite) Sample.world) as Ho.
  destruct (loop_evaluates 5 Sample.opts Sample.dir Sample.world (tests Sample.suite)
              Sample.world _ sample_evaluates []) as [t Ht].
  rewrite Ht in Ho. exact (Ho _ eq_refl).
Defined.

Lemma suite_ignores_cli_toggles_witness :
  run_suite 5 Sample.opts Sample.args Sample.dir Sample.suite Sample.world
  = run_suite 5 SampleExtra.opts_toggled Sample.args Sample.dir Sample.suite
      Sample.world.
Proof.
  assert (Hc : pco_cwd Sample.opts = pco_cwd SampleExtra.opts_toggled) by reflexivity.
  assert (Hu : pco_update Sample.opts = pco_update SampleExtra.opts_toggled)
    by reflexivity.
  exact (suite_ignores_cli_toggles 5 Sample.opts SampleExtra.opts_toggled Sample.args
           Sample.dir Sample.suite Sample.world Hc Hu).
Defined.

Lemma sample_passing_evaluates :
  suite_evaluates 5 Sample.opts Sample.dir Sample.world
    (tests SampleExtra.passing) Sample.world [].
Proof.
  apply (evaluates_pass 5 Sample.opts Sample.dir Sample.world Sample.case_b []
           Sample.world "effects of /w/t/b.js /w/t/c.js" Sample.world []);
    try reflexivity.
  apply evaluates_nil.
Defined.

Lemma passing_suite_reports_success_witness :
  exists t,
    run_suite 5 Sample.opts Sample.args Sample.dir SampleExtra.passing Sample.world
    = (Sample.world, t ++ [EvLog ""; EvLog "All tests passed."], Return tt) /\
    logs t = ["Testing b.js c.js"] /\
    writes t = [] /\ mkdirs t = [].
Proof.
  exact (passing_suite_reports_success 5 Sample.opts Sample.args Sample.dir
           SampleExtra.passing Sample.world Sample.world sample_passing_evaluates).
Defined.

Lemma suite_mode_throws_two_strings_witness :
  (main 5 Sample.args Sample.world).2 = Throw (ThrowString "") /\
  (existsSync Sample.world "/w/t/tests.json" = true /\
   pco_update (minimist Sample.args) = false) /\
  (main 5 ["/usr/bin/node"; "/path/cli.js"; "--test"; "missing.json"] Sample.world).2
  = Throw (ThrowString "Could not find the test file: /w/missing.json.").
Proof.
  assert (Hh : pco_help (minimist Sample.args) = false) by reflexivity.
  assert (Ht : pco_test (minimist Sample.args) = Some "t/tests.json") by reflexivity.
  assert (Hne : "t/tests.json" <> "") by discriminate.
  assert (Hthrow : (main 5 Sample.args Sample.world).2 = Throw (ThrowString ""))
    by reflexivity.
  split; [exact Hthrow|]. split.
  - destruct (proj1 (suite_mode_throws_two_strings 5 Sample.args Sample.world
                       "t/tests.json" "" Hh Ht Hne) Hthrow)
      as [[_ Hmsg]|(Hex & _ & Hu & _)]; [discriminate Hmsg|].
    split; [exact Hex | exact Hu].
  - assert (Hh' : pco_help (minimist ["/usr/bin/node"; "/path/cli.js"; "--test";
                                      "missing.json"]) = false) by reflexivity.
    assert (Ht' : pco_test (minimist ["/usr/bin/node"; "/path/cli.js"; "--test";
                                      "missing.json"]) = Some "missing.json")
      by reflexivity.
    assert (Hne' : "missing.json" <> "") by discriminate.
    assert (Hmiss : existsSync Sample.world "/w/missing.json" = false) by reflexivity.
    exact (proj2 (suite_mode_throws_two_strings 5 _ Sample.world "missing.json" _
                    Hh' Ht' Hne')
             (or_introl (conj Hmiss eq_refl))).
Defined.

Lemma sample_evaluates_before_failure :
  suite_evaluates (H := SampleExtra.host_failing) 5 Sample.opts Sample.dir
    Sample.world [Sample.case_a; Sample.case_b] Sample.world [Sample.failure_a].
Proof.
  apply (evaluates_mismatch (H := SampleExtra.host_failing) 5 Sample.opts Sample.dir
           Sample.world Sample.case_a [Sample.case_b]
           Sample.world "effects of /w/t/a.js" "" Sample.world Sample.world
           []); try reflexivity; [discriminate|].
  apply (evaluates_pass (H := SampleExtra.host_failing) 5 Sample.opts Sample.dir
           Sample.world Sample.case_b []
           Sample.world "effects of /w/t/b.js /w/t/c.js" Sample.world
           []); try reflexivity.
  apply evaluates_nil.
Defined.

Lemma checker_failure_aborts_suite_witness :
  exists t,
    run_suite (H := SampleExtra.host_failing) 5 Sample.opts Sample.args Sample.dir
      Sample.suite Sample.world
    = (Sample.world, t, Throw (HostError "bundle error")) /\
    checks t = map (caseOptions (H := SampleExtra.host_failing) Sample.opts Sample.dir)
                 [Sample.case_a; Sample.case_b; Sample.case_d] /\
    logs t = ["Testing a.js"; "Testing b.js c.js"; "Testing d.js"].
Proof.
  assert (Hts : tests Sample.suite = [Sample.case_a; Sample.case_b] ++ Sample.case_d :: [])
    by reflexivity.
  assert (Hfail : checkSideEffects (Host := SampleExtra.host_failing) Sample.world
                    (caseOptions (H := SampleExtra.host_failing) Sample.opts Sample.dir
                       Sample.case_d)
                  = HostFail "bundle error") by reflexivity.
  exact (checker_failure_aborts_suite (H := SampleExtra.host_failing) 5 Sample.opts
           Sample.args Sample.dir Sample.suite Sample.world
           [Sample.case_a; Sample.case_b] Sample.case_d [] Sample.world
           [Sample.failure_a] "bundle error" Hts sample_evaluates_before_failure Hfail).
Defined.

Lemma recursiveMkDir_creates_parents_first_witness :
  let '(w', t, r) := _recursiveMkDir 5 "/w/t/snaps/new" Sample.world in
  r <> OutOfFuel /\
  exists made,
    t = map EvExists (["/w/t/snaps/new"; "/w/t/snaps"] ++ ["/w/t"])
        ++ map EvMkdir made /\
    made `prefix_of` ["/w/t/snaps"; "/w/t/snaps/new"] /\
    (r = Return tt -> made = ["/w/t/snaps"; "/w/t/snaps/new"]).
Proof.
  assert (Habs : Forall (fun q => existsSync Sample.world q = false)
                   (ancestors 2 "/w/t/snaps/new")).
  { repeat constructor. }
  assert (Hex : existsSync Sample.world (Nat.iter 2 dirname "/w/t/snaps/new") = true)
    by reflexivity.
  exact (recursiveMkDir_creates_parents_first 2 "/w/t/snaps/new" Sample.world 5
           Habs Hex ltac:(lia)).
Defined.

(** The POSIX file system has the laws the two properties above ask for. *)
Lemma posix_dir_exists (w : gmap string Posix.node) q :
  SampleExtra.isDir w q -> Posix.existsSync w q = true.
Proof. unfold SampleExtra.isDir, Posix.existsSync. intros ->. reflexivity. Qed.

Lemma posix_mkdir_law (w : gmap string Posix.node) q :
  Posix.existsSync w q = false ->
  SampleExtra.isDir w (Posix.dirname q) ->
  exists w',
    Posix.mkdirSync w q = HostOk w' /\ SampleExtra.isDir w' q /\
    (forall q', SampleExtra.isDir w q' -> SampleExtra.isDir w' q') /\
    (forall q', Posix.existsSync w' q' = true ->
       q' = q \/ Posix.existsSync w q' = true).
Proof.
  unfold SampleExtra.isDir, Posix.existsSync, Posix.mkdirSync, Posix.create, Posix.fs.
  destruct (w !! q) eqn:Hq; [intros [=]|]. intros _ Hparent.
  rewrite Hparent. eexists. split; [reflexivity|]. split; [apply lookup_insert_eq|].
  split.
  - intros q' Hq'. rewrite lookup_insert_ne; [exact Hq' | congruence].
  - intros q'. destruct (decide (q = q')) as [->|Hne]; [auto|].
    rewrite lookup_insert_ne by exact Hne. auto.
Qed.

Lemma posix_write_law (w : gmap string Posix.node) p d w' :
  Posix.writeFileSync w p d = HostOk w' ->
  Posix.existsSync w' p = true /\ Posix.readFileSync w' p = HostOk d.
Proof.
  unfold Posix.writeFileSync, Posix.create, Posix.existsSync, Posix.readFileSync,
    Posix.fs.
  destruct (w !! p) as [[data|]|]; try discriminate.
  - intros [= <-]. rewrite lookup_insert_eq. split; reflexivity.
  - destruct (w !! Posix.dirname p) as [[|]|]; try discriminate.
    intros [= <-]. rewrite lookup_insert_eq. split; reflexivity.
Qed.

Lemma recursiveMkDir_makes_directory_witness :
  exists w' t,
    _recursiveMkDir 5 "/w/t/snaps/new" Sample.world = (w', t, Return tt) /\
    SampleExtra.isDir w' "/w/t/snaps/new" /\
    (forall q, SampleExtra.isDir Sample.world q -> SampleExtra.isDir w' q) /\
    (forall q, existsSync w' q = true ->
       existsSync Sample.world q = true \/ q ∈ ["/w/t/snaps/new"; "/w/t/snaps"]).
Proof.
  assert (Habs : Forall (fun q => existsSync Sample.world q = false)
                   (ancestors 2 "/w/t/snaps/new")).
  { repeat constructor. }
  assert (Hdir : SampleExtra.isDir Sample.world (Nat.iter 2 dirname "/w/t/snaps/new"))
    by reflexivity.
  exact (recursiveMkDir_makes_directory SampleExtra.isDir 2
           posix_dir_exists posix_mkdir_law "/w/t/snaps/new" Sample.world 5
           Habs Hdir ltac:(lia)).
Defined.

Lemma updated_snapshot_passes_next_check_witness :
  exists t,
    loop_body 5 Sample.opts Sample.dir [] Sample.case_a Sample.world_a
    = (Sample.world_a, t, Return []) /\
    writes t = [] /\ mkdirs t = [].
Proof.
  assert (Hup : updateSnapshot 5 (expectedOutputPath Sample.dir Sample.case_a)
                  "effects of /w/t/a.js" Sample.world
                = (Sample.world_a,
                   [EvExists "/w/t"; EvWrite "/w/t/a.snap" "effects of /w/t/a.js"],
                   Return tt)) by (vm_compute; reflexivity).
  assert (Hc : checkSideEffects Sample.world_a
                 (caseOptions Sample.opts Sample.dir Sample.case_a)
               = HostOk (Sample.world_a, "effects of /w/t/a.js")) by reflexivity.
  exact (updated_snapshot_passes_next_check 5 Sample.opts Sample.dir []
           Sample.case_a Sample.world Sample.world_a Sample.world_a _
           "effects of /w/t/a.js" posix_write_law Hup Hc eq_refl).
Defined.

Lemma update_count_is_number_of_write_calls_witness :
  (run_suite 5 Sample.opts_update Sample.args_update Sample.dir Sample.suite
     Sample.world).2 = Return tt /\
  length (writes (run_suite 5 Sample.opts_update Sample.args_update Sample.dir
                    Sample.suite Sample.world).1.2) = 2 /\
  last (logs (run_suite 5 Sample.opts_update Sample.args_update Sample.dir
                Sample.suite Sample.world).1.2)
  = Some "2 test expectations updated.
".
Proof.
  assert (Hupd : pco_update Sample.opts_update = true) by reflexivity.
  assert (Hne : [Sample.failure_a; Sample.failure_d] <> []) by discriminate.
  destruct (update_count_is_number_of_write_calls 5 Sample.opts_update
              Sample.args_update Sample.dir Sample.suite Sample.world
              Sample.world_updated [Sample.failure_a; Sample.failure_d]
              Hupd sample_evaluates_update Hne) as (Hr & Hlen & Hlast).
  split; [exact Hr|]. split; [exact Hlen|].
  rewrite Hlast, Hlen. reflexivity.
Defined.

Lemma zero_positional_tokens_miss_the_module_check_witness :
  pco_positional (minimist []) = [] /\
  main 5 [] Sample.world =
    (Sample.world, [],
     Throw (TypeError "Cannot read properties of undefined (reading 'endsWith')")) /\
  (main 5 [] Sample.world).2 <>
    Throw (ThrowString
      "You must provide at least one ES module. Use --help for usage information.").
Proof.
  assert (Hh : pco_help (minimist []) = false) by reflexivity.
  assert (Ht : truthy (pco_test (minimist [])) = false) by reflexivity.
  assert (Hp : pco_positional (minimist []) = []) by reflexivity.
  split; [exact Hp|].
  exact (zero_positional_tokens_miss_the_module_check 5 [] Sample.world Hh Ht Hp).
Defined.
